(** * Wire protocol of session8/network.py: envelope framing, message
      catalog and the session's dispatch loop.

    The development is a shallow embedding of [network.py].  Python [bytes]
    are lists of [byte]; a [BytesIO] or socket stream is the list of bytes
    not read yet, threaded through the parsers; exceptions are values of
    [exn] carried by [result]. *)

From Stdlib Require Import String Ascii.
From Stdlib Require Import ZArith List Bool Lia.
From Stdlib Require Import Init.Byte Strings.Byte.
From coqutil Require Import Byte Word.LittleEndianList.
Import ListNotations.

Local Open Scope Z_scope.

Abbreviation bytes := (list byte).

(** ** Python values the model needs *)

(** The exceptions the module and its helpers raise. *)
Inductive exn : Type :=
| RuntimeError (msg : string)
| OverflowError
| ValueError
| TypeError (msg : string)
| AttributeError (msg : string)
| KeyError
| NotImplementedError.

Inductive result (A : Type) : Type :=
| Ok (a : A)
| Raise (e : exn).
Arguments Ok {A} a.
Arguments Raise {A} e.

Definition bind {A B : Type} (r : result A) (k : A -> result B) : result B :=
  match r with
  | Ok a => k a
  | Raise e => Raise e
  end.

Notation "x <- r ;; k" := (bind r (fun x => k))
  (at level 61, r at next level, right associativity).

(** [bytes.hex()]. *)
Definition hex_digit (n : Z) : ascii :=
  ascii_of_nat (Z.to_nat (if n <? 10 then 48 + n else 87 + n)).

Fixpoint hex (b : bytes) : string :=
  match b with
  | [] => EmptyString
  | x :: t =>
      String (hex_digit (byte.unsigned x / 16))
        (String (hex_digit (byte.unsigned x mod 16)) (hex t))
  end.

(** [bytes.fromhex], on strings of hexadecimal digits. *)
Definition digit_val (c : ascii) : Z :=
  let n := Z.of_nat (nat_of_ascii c) in
  if (48 <=? n) && (n <=? 57) then n - 48
  else if (97 <=? n) && (n <=? 102) then n - 87
  else if (65 <=? n) && (n <=? 70) then n - 55
  else 0.

Fixpoint fromhex (s : string) : bytes :=
  match s with
  | String a (String b t) => byte.of_Z (16 * digit_val a + digit_val b) :: fromhex t
  | _ => []
  end.

(** [bytes(s, "ascii")] for the byte-string literals of the source. *)
Fixpoint b_ (s : string) : bytes :=
  match s with
  | EmptyString => []
  | String a t => byte.of_Z (Z.of_nat (nat_of_ascii a)) :: b_ t
  end.

Definition bytes_eqb (a b : bytes) : bool :=
  if list_eq_dec Byte.byte_eq_dec a b then true else false.

(** ** helper.py *)

(** Modelled from the spec: [helper.int_to_little_endian] is not in the
    module under study; section 6 gives [intToLE(n, width) -> bytes].  It is
    [n.to_bytes(width, "little")], which raises [OverflowError] when [n]
    does not fit [width] bytes. *)
Definition int_to_little_endian (n : Z) (width : nat) : result bytes :=
  if (0 <=? n) && (n <? 2 ^ (8 * Z.of_nat width))
  then Ok (le_split width n)
  else Raise OverflowError.

(** Modelled from the spec: [helper.little_endian_to_int], section 6
    [leToInt(bytes) -> n]; [int.from_bytes(b, "little")]. *)
Definition little_endian_to_int (b : bytes) : Z := le_combine b.

(** Modelled from the spec: [helper.encode_varint], section 6
    [encodeVarint(uint) -> bytes]: one byte below 0xfd, else a marker byte
    0xfd, 0xfe or 0xff and 2, 4 or 8 little-endian bytes. *)
Definition encode_varint (i : Z) : result bytes :=
  if i <? 0 then Raise ValueError
  else if i <? 0xfd then Ok [byte.of_Z i]
  else if i <? 0x10000 then
    b <- int_to_little_endian i 2 ;; Ok (xfd :: b)
  else if i <? 0x100000000 then
    b <- int_to_little_endian i 4 ;; Ok (xfe :: b)
  else if i <? 0x10000000000000000 then
    b <- int_to_little_endian i 8 ;; Ok (xff :: b)
  else Raise ValueError.

(** *** SHA-256 (FIPS 180-4) on 32-bit words held in [Z] *)

Module SHA256.

Definition mask32 : Z := 0xffffffff.
Definition add32 (x y : Z) : Z := Z.land (x + y) mask32.
Definition rotr (n x : Z) : Z :=
  Z.lor (Z.shiftr x n) (Z.land (Z.shiftl x (32 - n)) mask32).
Definition not32 (x : Z) : Z := Z.lxor x mask32.

Definition Ch (e f g : Z) : Z := Z.lxor (Z.land e f) (Z.land (not32 e) g).
Definition Maj (a b c : Z) : Z :=
  Z.lxor (Z.lxor (Z.land a b) (Z.land a c)) (Z.land b c).
Definition Sigma0 (a : Z) : Z := Z.lxor (Z.lxor (rotr 2 a) (rotr 13 a)) (rotr 22 a).
Definition Sigma1 (e : Z) : Z := Z.lxor (Z.lxor (rotr 6 e) (rotr 11 e)) (rotr 25 e).
Definition sigma0 (x : Z) : Z := Z.lxor (Z.lxor (rotr 7 x) (rotr 18 x)) (Z.shiftr x 3).
Definition sigma1 (x : Z) : Z := Z.lxor (Z.lxor (rotr 17 x) (rotr 19 x)) (Z.shiftr x 10).

(** The round constants and the initial hash value are the first 32 bits of
    the fractional parts of the cube roots, and of the square roots, of the
    first primes. *)
Definition is_prime (n : Z) : bool :=
  forallb (fun d => negb (n mod Z.of_nat d =? 0)) (seq 2 (Z.to_nat n - 2)).

Definition primes_to (n : nat) : list Z :=
  filter is_prime (map Z.of_nat (seq 2 (n - 1))).

(** The largest [r] below [2 ^ bits] with [r ^ 3 <= n]. *)
Fixpoint cube_root (bits : nat) (n r : Z) : Z :=
  match bits with
  | O => r
  | S b =>
      let r' := r + 2 ^ Z.of_nat b in
      cube_root b n (if r' * r' * r' <=? n then r' else r)
  end.

Definition K : list Z :=
  Eval vm_compute in
    map (fun p => Z.land (cube_root 36 (p * 2 ^ 96) 0) mask32) (primes_to 311).

Definition IV : list Z :=
  Eval vm_compute in
    map (fun p => Z.land (Z.sqrt (p * 2 ^ 64)) mask32) (primes_to 19).

Definition be_split (n : nat) (z : Z) : bytes := rev (le_split n z).
Definition be_combine (b : bytes) : Z := le_combine (rev b).

(** The padded message: a 0x80 byte, zero bytes, and the bit length on 8
    big-endian bytes, up to a multiple of 64 bytes. *)
Definition pad (m : bytes) : bytes :=
  let l := Z.of_nat (length m) in
  m ++ [x80] ++ repeat x00 (Z.to_nat ((55 - l) mod 64)) ++ be_split 8 (8 * l).

Fixpoint chunks {A : Type} (fuel n : nat) (l : list A) : list (list A) :=
  match fuel, l with
  | O, _ | _, [] => []
  | S f, _ => firstn n l :: chunks f n (skipn n l)
  end.

(** The message schedule, most recent word first. *)
Fixpoint extend (n : nat) (rw : list Z) : list Z :=
  match n with
  | O => rw
  | S n' =>
      let g k := nth k rw 0 in
      extend n'
        (add32 (add32 (add32 (g 15%nat) (sigma0 (g 14%nat))) (g 6%nat))
               (sigma1 (g 1%nat)) :: rw)
  end.

Definition schedule (block : bytes) : list Z :=
  rev (extend 48 (rev (map be_combine (chunks 16 4 block)))).

Definition round (s : list Z) (kw : Z * Z) : list Z :=
  match s with
  | [a; b; c; d; e; f; g; h] =>
      let t1 := add32 (add32 (add32 (add32 h (Sigma1 e)) (Ch e f g)) (fst kw)) (snd kw) in
      let t2 := add32 (Sigma0 a) (Maj a b c) in
      [add32 t1 t2; a; b; c; add32 d t1; e; f; g]
  | _ => s
  end.

Fixpoint add_words (x y : list Z) : list Z :=
  match x, y with
  | a :: x', b :: y' => add32 a b :: add_words x' y'
  | _, _ => []
  end.

Definition compress (h : list Z) (block : bytes) : list Z :=
  add_words h (fold_left round (combine K (schedule block)) h).

Definition sha256 (m : bytes) : bytes :=
  let p := pad m in
  flat_map (be_split 4) (fold_left compress (chunks (length p) 64 p) IV).

End SHA256.

(** Modelled from the spec: [helper.hash256] is not in the module under
    study; section 6 gives [doubleHash(bytes) -> 32 bytes], a hash applied
    twice.  The hash is SHA-256: the frames of [NetworkEnvelopeTest] fix
    its first four bytes on two payloads (lemmas [hash256_empty] and
    [hash256_version_payload] below). *)
Definition hash256 (s : bytes) : bytes := SHA256.sha256 (SHA256.sha256 s).

(** ** Module constants *)

Definition TX_DATA_TYPE : Z := 1.
Definition BLOCK_DATA_TYPE : Z := 2.
Definition FILTERED_BLOCK_DATA_TYPE : Z := 3.
Definition COMPACT_BLOCK_DATA_TYPE : Z := 4.

(** The keys of the [MAGIC] and [PORT] dictionaries. *)
Inductive network : Type := mainnet | testnet | signet.

Definition MAGIC (n : network) : bytes :=
  match n with
  | mainnet => [xf9; xbe; xb4; xd9]
  | testnet => [x0b; x11; x09; x07]
  | signet => [x0a; x03; xcf; x40]
  end.

Definition PORT (n : network) : Z :=
  match n with
  | mainnet => 8333
  | testnet => 18333
  | signet => 38333
  end.

(** ** Byte strings and streams *)

(** [b.strip(b"\x00")] removes the zero bytes at both ends. *)
Fixpoint lstrip (l : bytes) : bytes :=
  match l with
  | x00 :: t => lstrip t
  | _ => l
  end.

Definition rstrip (l : bytes) : bytes := rev (lstrip (rev l)).

Definition strip (l : bytes) : bytes := rstrip (lstrip l).

(** [b"\x00" * n]: empty when [n] is not positive. *)
Definition zeros (n : Z) : bytes := repeat x00 (Z.to_nat n).

Definition len (b : bytes) : Z := Z.of_nat (length b).

Definition len_items {A : Type} (l : list A) : Z := Z.of_nat (length l).

(** [s.read(n)] on a stream whose unread bytes are [s]: the bytes read (fewer
    than [n] at the end of the stream) and the bytes left. *)
Definition read (n : Z) (s : bytes) : bytes * bytes :=
  (firstn (Z.to_nat n) s, skipn (Z.to_nat n) s).

(** ** NetworkEnvelope *)

Record NetworkEnvelope : Type := mkNetworkEnvelope {
  command : bytes;
  payload : bytes;
  magic : bytes
}.

(** [NetworkEnvelope.__init__]. *)
Definition NetworkEnvelope_init (command payload : bytes) (net : network)
  : NetworkEnvelope :=
  {| command := command; payload := payload; magic := MAGIC net |}.

Definition connection_reset : exn := RuntimeError "Connection reset!".

Definition magic_not_right (observed expected : bytes) : exn :=
  RuntimeError ("magic is not right " ++ hex observed ++ " vs " ++ hex expected).

Definition checksum_mismatch : exn := RuntimeError "checksum does not match".

(** [NetworkEnvelope.parse]: the outcome and the stream after the call. *)
Definition parse (s : bytes) (net : network) : result NetworkEnvelope * bytes :=
  let '(magic, s) := read 4 s in
  if bytes_eqb magic [] then (Raise connection_reset, s)
  else if negb (bytes_eqb magic (MAGIC net)) then
    (Raise (magic_not_right magic (MAGIC net)), s)
  else
    let '(field, s) := read 12 s in
    let command := strip field in
    let '(l, s) := read 4 s in
    let payload_length := little_endian_to_int l in
    let '(checksum, s) := read 4 s in
    let '(payload, s) := read payload_length s in
    let calculated_checksum := firstn 4 (hash256 payload) in
    if negb (bytes_eqb calculated_checksum checksum) then
      (Raise checksum_mismatch, s)
    else (Ok (NetworkEnvelope_init command payload net), s).

(** [NetworkEnvelope.serialize]. *)
Definition serialize (e : NetworkEnvelope) : result bytes :=
  let result := magic e in
  let result := result ++ command e ++ zeros (12 - len (command e)) in
  l <- int_to_little_endian (len (payload e)) 4 ;;
  let result := result ++ l in
  let result := result ++ firstn 4 (hash256 (payload e)) in
  let result := result ++ payload e in
  Ok result.

(** [NetworkEnvelope.stream]: a fresh stream over the payload. *)
Definition stream_of (e : NetworkEnvelope) : bytes := payload e.

(** The two frames of [NetworkEnvelopeTest]. *)
Definition verack_frame : bytes :=
  fromhex "f9beb4d976657261636b000000000000000000005df6e0e2".

Definition version_frame : bytes :=
  fromhex "f9beb4d976657273696f6e0000000000650000005f1a69d2721101000100000000000000bc8f5e5400000000010000000000000000000000000000000000ffffc61b6409208d010000000000000000000000000000000000ffffcb0071c0208d128035cbc97953f80f2f5361746f7368693a302e392e332fcf05050001".

(** ** The message catalog *)

(** *** VersionMessage *)

Record VersionMessage : Type := mkVersionMessage {
  version : Z;
  services : Z;
  timestamp : Z;
  receiver_services : Z;
  receiver_ip : bytes;
  receiver_port : Z;
  sender_services : Z;
  sender_ip : bytes;
  sender_port : Z;
  nonce : bytes;
  user_agent : bytes;
  latest_block : Z;
  relay : bool
}.

(** [random.randint(a, b)] returns an integer [r] with [a <= r <= b]: both
    ends are included. *)
Definition randint (a b r : Z) : Prop := a <= r <= b.

(** What a construction reads from its surroundings: the clock,
    [int(time.time())], and the draw of [randint(0, 2**64)]. *)
Record ambient : Type := mkAmbient {
  now : Z;
  draw : Z
}.

(** [VersionMessage.__init__]; [None] stands for an argument left to its
    [None] default. *)
Definition VersionMessage_init (env : ambient)
    (version services : Z) (timestamp : option Z) (receiver_services : Z)
    (receiver_ip : bytes) (receiver_port : Z) (sender_services : Z)
    (sender_ip : bytes) (sender_port : Z) (nonce : option bytes)
    (user_agent : bytes) (latest_block : Z) (relay : bool)
  : result VersionMessage :=
  let timestamp :=
    match timestamp with
    | None => now env
    | Some t => t
    end in
  nonce <- match nonce with
           | None => int_to_little_endian (draw env) 8
           | Some n => Ok n
           end ;;
  Ok {| version := version; services := services; timestamp := timestamp;
        receiver_services := receiver_services; receiver_ip := receiver_ip;
        receiver_port := receiver_port; sender_services := sender_services;
        sender_ip := sender_ip; sender_port := sender_port; nonce := nonce;
        user_agent := user_agent; latest_block := latest_block;
        relay := relay |}.

(** [VersionMessage(timestamp=t, nonce=n)], the other arguments at their
    defaults; [VersionMessage()] is [VersionMessage_default env None None]. *)
Definition VersionMessage_default (env : ambient)
    (timestamp : option Z) (nonce : option bytes) : result VersionMessage :=
  VersionMessage_init env 70015 0 timestamp 0 [x00; x00; x00; x00] 8333 0
    [x00; x00; x00; x00] 8333 nonce (b_ "/programmingblockchain:0.1/") 0 true.

Definition VersionMessage_serialize (m : VersionMessage) : result bytes :=
  r1 <- int_to_little_endian (version m) 4 ;;
  r2 <- int_to_little_endian (services m) 8 ;;
  r3 <- int_to_little_endian (timestamp m) 8 ;;
  r4 <- int_to_little_endian (receiver_services m) 8 ;;
  let r5 := zeros 10 ++ [xff; xff] ++ receiver_ip m in
  r6 <- int_to_little_endian (receiver_port m) 2 ;;
  r7 <- int_to_little_endian (sender_services m) 8 ;;
  let r8 := zeros 10 ++ [xff; xff] ++ sender_ip m in
  r9 <- int_to_little_endian (sender_port m) 2 ;;
  let r10 := nonce m in
  r11 <- encode_varint (len (user_agent m)) ;;
  let r12 := user_agent m in
  r13 <- int_to_little_endian (latest_block m) 4 ;;
  let r14 := if relay m then [x01] else [x00] in
  Ok (r1 ++ r2 ++ r3 ++ r4 ++ r5 ++ r6 ++ r7 ++ r8 ++ r9 ++ r10 ++ r11 ++ r12
         ++ r13 ++ r14).

(** *** GetHeadersMessage *)

Record GetHeadersMessage : Type := mkGetHeadersMessage {
  gh_version : Z;
  num_hashes : Z;
  start_block : bytes;
  end_block : bytes
}.

(** [GetHeadersMessage.__init__]. *)
Definition GetHeadersMessage_init (version num_hashes : Z)
    (start_block end_block : option bytes) : result GetHeadersMessage :=
  match start_block with
  | None => Raise (RuntimeError "a start block is required")
  | Some start =>
      Ok {| gh_version := version; num_hashes := num_hashes;
            start_block := start;
            end_block := match end_block with
                         | None => zeros 32
                         | Some e => e
                         end |}
  end.

Definition GetHeadersMessage_serialize (m : GetHeadersMessage) : result bytes :=
  r1 <- int_to_little_endian (gh_version m) 4 ;;
  r2 <- encode_varint (num_hashes m) ;;
  Ok (r1 ++ r2 ++ rev (start_block m) ++ rev (end_block m)).

(** *** GetDataMessage *)

Record GetDataMessage : Type := mkGetDataMessage {
  data : list (Z * bytes)
}.

Definition GetDataMessage_init : GetDataMessage := {| data := [] |}.

Definition add_data (data_type : Z) (identifier : bytes) (m : GetDataMessage)
  : GetDataMessage :=
  {| data := data m ++ [(data_type, identifier)] |}.

Fixpoint GetDataMessage_items (items : list (Z * bytes)) (result0 : bytes)
  : result bytes :=
  match items with
  | [] => Ok result0
  | (data_type, identifier) :: rest =>
      t <- int_to_little_endian data_type 4 ;;
      GetDataMessage_items rest (result0 ++ t ++ rev identifier)
  end.

Definition GetDataMessage_serialize (m : GetDataMessage) : result bytes :=
  r <- encode_varint (len_items (data m)) ;;
  GetDataMessage_items (data m) r.

(** *** Messages that can be sent *)

Inductive message : Type :=
| Version (m : VersionMessage)
| VerAck
| Ping (nonce : bytes)
| Pong (nonce : bytes)
| GetHeaders (m : GetHeadersMessage)
| GetData (m : GetDataMessage)
| Generic (command payload : bytes).

(** The [command] attribute of a message. *)
Definition message_command (m : message) : bytes :=
  match m with
  | Version _ => b_ "version"
  | VerAck => b_ "verack"
  | Ping _ => b_ "ping"
  | Pong _ => b_ "pong"
  | GetHeaders _ => b_ "getheaders"
  | GetData _ => b_ "getdata"
  | Generic c _ => c
  end.

(** The [serialize] method of a message. *)
Definition message_serialize (m : message) : result bytes :=
  match m with
  | Version v => VersionMessage_serialize v
  | VerAck => Ok []
  | Ping n => Ok n
  | Pong n => Ok n
  | GetHeaders g => GetHeadersMessage_serialize g
  | GetData d => GetDataMessage_serialize d
  | Generic _ p => Ok p
  end.

(** ** Message classes, as [wait_for] uses them *)

(** How [parse] is declared in a class body: under [@classmethod], or as a
    plain function. *)
Inductive method_kind : Type := is_classmethod | is_function.

(** The call [cls.parse(stream)] on the class [name] whose [parse] has the
    parameters [(cls, s)] and no [network] keyword.  A classmethod receives
    the class and the stream.  A plain function looked up on the class is
    not bound: the stream lands in its first parameter and [s] is missing. *)
Definition call_parse {M : Type} (name : string) (k : method_kind)
    (body : bytes -> result M) (s : bytes) (kw : option network) : result M :=
  match kw with
  | Some _ =>
      Raise (TypeError (name ++ ".parse() got an unexpected keyword argument 'network'"))
  | None =>
      match k with
      | is_classmethod => body s
      | is_function =>
          Raise (TypeError (name ++ ".parse() missing 1 required positional argument: 's'"))
      end
  end.

(** A class handed to [wait_for]: its [command] and [define_network]
    attributes, and what [cls.parse(stream)] or
    [cls.parse(stream, network=n)] evaluates to. *)
Record message_class (M : Type) : Type := mkMessageClass {
  cls_command : bytes;
  define_network : bool;
  cls_parse : bytes -> option network -> result M
}.
Arguments cls_command {M} _.
Arguments define_network {M} _.
Arguments cls_parse {M} _ _ _.

(** [VerAckMessage.parse]. *)
Definition VerAckMessage_parse_body (s : bytes) : result message := Ok VerAck.

(** [PingMessage.parse]: [nonce = s.read(8)]. *)
Definition PingMessage_parse_body (s : bytes) : result message :=
  let '(nonce, _) := read 8 s in Ok (Ping nonce).

(** [PongMessage.parse]: [nonce = s.read(8)]. *)
Definition PongMessage_parse_body (s : bytes) : result message :=
  let '(nonce, _) := read 8 s in Ok (Pong nonce).

Definition VerAckMessage_parse : bytes -> option network -> result message :=
  call_parse "VerAckMessage" is_classmethod VerAckMessage_parse_body.

Definition PingMessage_parse : bytes -> option network -> result message :=
  call_parse "PingMessage" is_classmethod PingMessage_parse_body.

(** [PongMessage.parse] carries no [@classmethod]. *)
Definition PongMessage_parse : bytes -> option network -> result message :=
  call_parse "PongMessage" is_function PongMessage_parse_body.

(** [VersionMessage] defines no [parse]. *)
Definition VersionMessage_parse (s : bytes) (kw : option network) : result message :=
  Raise (AttributeError "type object 'VersionMessage' has no attribute 'parse'").

Definition VersionMessage_class : message_class message :=
  {| cls_command := b_ "version"; define_network := false;
     cls_parse := VersionMessage_parse |}.

Definition VerAckMessage_class : message_class message :=
  {| cls_command := b_ "verack"; define_network := false;
     cls_parse := VerAckMessage_parse |}.

Definition PingMessage_class : message_class message :=
  {| cls_command := b_ "ping"; define_network := false;
     cls_parse := PingMessage_parse |}.

Definition PongMessage_class : message_class message :=
  {| cls_command := b_ "pong"; define_network := false;
     cls_parse := PongMessage_parse |}.

(** ** SimpleNode *)

(** The session: its configuration, the bytes of the socket stream not read
    yet, the byte strings handed to [socket.sendall] so far and the lines
    printed so far. *)
Record SimpleNode : Type := mkSimpleNode {
  node_network : network;
  logging : bool;
  stream : bytes;
  sent : list bytes;
  printed : list string
}.

Definition set_stream (s : bytes) (node : SimpleNode) : SimpleNode :=
  {| node_network := node_network node; logging := logging node; stream := s;
     sent := sent node; printed := printed node |}.

(** [socket.sendall] as a socket that accepts every byte string: a failure
    of the connection while sending ([OSError]) is outside the model, so a
    statement about [sent] speaks of what was handed to the socket. *)
Definition sendall (frame : bytes) (node : SimpleNode) : SimpleNode :=
  {| node_network := node_network node; logging := logging node;
     stream := stream node; sent := sent node ++ [frame];
     printed := printed node |}.

Definition print (line : string) (node : SimpleNode) : SimpleNode :=
  {| node_network := node_network node; logging := logging node;
     stream := stream node; sent := sent node;
     printed := printed node ++ [line] |}.

(** [NetworkEnvelope.__repr__] returns a plain string literal: it is not an
    f-string, so every envelope prints as the same text. *)
Definition NetworkEnvelope_repr (e : NetworkEnvelope) : string :=
  let q := String (ascii_of_nat 34) EmptyString in
  ("{self.command.decode(" ++ q ++ "ascii" ++ q ++ ")}: {self.payload.hex()}")%string.

(** [SimpleNode.send]. *)
Definition send (m : message) (node : SimpleNode) : result unit * SimpleNode :=
  match message_serialize m with
  | Raise x => (Raise x, node)
  | Ok p =>
      let envelope := NetworkEnvelope_init (message_command m) p (node_network node) in
      let node :=
        if logging node
        then print ("sending: " ++ NetworkEnvelope_repr envelope) node
        else node in
      match serialize envelope with
      | Raise x => (Raise x, node)
      | Ok frame => (Ok tt, sendall frame node)
      end
  end.

(** [SimpleNode.read]. *)
Definition node_read (node : SimpleNode) : result NetworkEnvelope * SimpleNode :=
  let '(r, s) := parse (stream node) (node_network node) in
  let node := set_stream s node in
  match r with
  | Raise x => (Raise x, node)
  | Ok envelope =>
      (Ok envelope,
       if logging node
       then print ("receiving: " ++ NetworkEnvelope_repr envelope) node
       else node)
  end.

(** The dictionary [{m.command: m for m in message_classes}]: a later class
    replaces an earlier one with the same command. *)
Definition command_to_class {M : Type} (message_classes : list (message_class M))
  : list (bytes * message_class M) :=
  map (fun m => (cls_command m, m)) message_classes.

Definition dict_get {M : Type} (d : list (bytes * message_class M)) (k : bytes)
  : option (message_class M) :=
  option_map snd (find (fun kv => bytes_eqb k (fst kv)) (rev d)).

Definition dict_mem {M : Type} (d : list (bytes * message_class M)) (k : bytes)
  : bool :=
  existsb (fun kv => bytes_eqb k (fst kv)) d.

(** The answers [wait_for] gives on its own to the envelope just read. *)
Definition auto_respond (envelope : NetworkEnvelope) (node : SimpleNode)
  : result unit * SimpleNode :=
  if bytes_eqb (command envelope) (b_ "version") then send VerAck node
  else if bytes_eqb (command envelope) (b_ "ping") then
    send (Pong (payload envelope)) node
  else (Ok tt, node).

(** The [while] loop of [wait_for].  [command] starts as [None], which is no
    key of the dictionary, so the body runs before the first test that can
    succeed: the loop reads, answers, and then tests the command it read.
    [fuel] bounds the number of envelopes read; [None] is for fuel run out. *)
Fixpoint wait_loop {M : Type} (fuel : nat) (d : list (bytes * message_class M))
    (node : SimpleNode) : option (result NetworkEnvelope * SimpleNode) :=
  match fuel with
  | O => None
  | S fuel' =>
      match node_read node with
      | (Raise x, node) => Some (Raise x, node)
      | (Ok envelope, node) =>
          match auto_respond envelope node with
          | (Raise x, node) => Some (Raise x, node)
          | (Ok _, node) =>
              if dict_mem d (command envelope) then Some (Ok envelope, node)
              else wait_loop fuel' d node
          end
      end
  end.

(** [SimpleNode.wait_for], called with the classes waited for.  Every envelope read takes
    bytes off the stream, so one more round than the stream has bytes is
    fuel enough (lemma [wait_for_returns]).  The stream is the finite list
    of bytes the peer sends before closing: a read that blocks on a silent
    peer is outside the model, and the statements about [wait_for] are
    about the runs that end. *)
Definition wait_for {M : Type} (message_classes : list (message_class M))
    (node : SimpleNode) : option (result M * SimpleNode) :=
  let d := command_to_class message_classes in
  match wait_loop (S (length (stream node))) d node with
  | None => None
  | Some (Raise x, node) => Some (Raise x, node)
  | Some (Ok envelope, node) =>
      match dict_get d (command envelope) with
      | None => Some (Raise KeyError, node)
      | Some cls =>
          if define_network cls
          then Some (cls_parse cls (stream_of envelope) (Some (node_network node)), node)
          else Some (cls_parse cls (stream_of envelope) None, node)
      end
  end.

(** [SimpleNode.handshake]. *)
Definition handshake (env : ambient) (node : SimpleNode)
  : option (result unit * SimpleNode) :=
  match VersionMessage_default env None None with
  | Raise x => Some (Raise x, node)
  | Ok v =>
      match send (Version v) node with
      | (Raise x, node) => Some (Raise x, node)
      | (Ok _, node) =>
          match wait_for [VerAckMessage_class] node with
          | None => None
          | Some (Raise x, node) => Some (Raise x, node)
          | Some (Ok _, node) => Some (Ok tt, node)
          end
      end
  end.

(** What the session needs of the transaction type of [tx.py]: the class
    handed to [wait_for], and the [hash] and [id] methods. *)
Record TxInterface : Type := mkTxInterface {
  Tx : Type;
  Tx_class : message_class Tx;
  Tx_hash : Tx -> bytes;
  Tx_id : Tx -> string
}.

(** What a Python function can hand back here: [True], [False], or the
    [None] of a body that ends without a [return]. *)
Inductive pyvalue : Type := PyTrue | PyFalse | PyNone.

(** [SimpleNode.is_tx_accepted]. *)
Definition is_tx_accepted (T : TxInterface) (tx_obj : Tx T) (node : SimpleNode)
  : option (result pyvalue * SimpleNode) :=
  let get_data := GetDataMessage_init in
  let get_data := add_data TX_DATA_TYPE (Tx_hash T tx_obj) get_data in
  match send (GetData get_data) node with
  | (Raise x, node) => Some (Raise x, node)
  | (Ok _, node) =>
      match wait_for [Tx_class T] node with
      | None => None
      | Some (Raise x, node) => Some (Raise x, node)
      | Some (Ok got_tx, node) =>
          if String.eqb (Tx_id T got_tx) (Tx_id T tx_obj)
          then Some (Ok PyTrue, node)
          else Some (Ok PyNone, node)
      end
  end.

(** [SimpleNode.get_block]. *)
Definition get_block (block_hash : bytes) (node : SimpleNode)
  : result unit * SimpleNode :=
  (Raise NotImplementedError, node).

(** ** Notions the properties are stated with *)

(** The frame layout of section 6 of the specification:
    magic(4) || command(12, null-padded) || length(4) || checksum(4) ||
    payload(length). *)
Definition wire (command payload : bytes) (net : network) : bytes :=
  MAGIC net ++ (command ++ zeros (12 - len command)) ++ le_split 4 (len payload)
    ++ firstn 4 (hash256 payload) ++ payload.

(** A command with no zero byte at either end. *)
Definition no_nul_ends (command : bytes) : Prop :=
  hd x01 command <> x00 /\ last command x01 <> x00.



(** An envelope the round-trip law is about: its magic is the configured
    network's, its command has at most 12 bytes and no zero byte at either
    end, and its payload length fits the 4-byte length field. *)
Definition valid_envelope (net : network) (e : NetworkEnvelope) : Prop :=
  magic e = MAGIC net /\
  (length (command e) <= 12)%nat /\
  no_nul_ends (command e) /\
  len (payload e) < 2 ^ 32.

(** A frame in the layout of section 6 around such a command and payload. *)
Definition well_formed_frame (net : network) (f : bytes) : Prop :=
  exists c p,
    (length c <= 12)%nat /\ no_nul_ends c /\ len p < 2 ^ 32 /\ f = wire c p net.

(** The fixed header of a frame [f] made for the envelope [e]: the twelve
    bytes after the magic are the command followed by zero bytes only, and
    the frame has 24 bytes before the payload. *)
Definition has_fixed_header (e : NetworkEnvelope) (f : bytes) : Prop :=
  firstn 12 (skipn 4 f) = command e ++ zeros (12 - len (command e)) /\
  len f = 24 + len (payload e).

(** The replies the specification asks of the wait loop for one inbound
    envelope: one VerAck frame for a [version], one Pong frame with the
    payload of the Ping for a [ping], nothing otherwise. *)
Definition auto_replies (net : network) (e : NetworkEnvelope) : list bytes :=
  if bytes_eqb (command e) (b_ "version") then [wire (b_ "verack") [] net]
  else if bytes_eqb (command e) (b_ "ping") then [wire (b_ "pong") (payload e) net]
  else [].

(** [consumes net s es s']: reading envelopes off the stream [s] one after
    the other yields [es] and leaves [s']. *)
Inductive consumes (net : network) : bytes -> list NetworkEnvelope -> bytes -> Prop :=
| consumes_nil (s : bytes) : consumes net s [] s
| consumes_cons (s s1 s2 : bytes) (e : NetworkEnvelope) (es : list NetworkEnvelope) :
    parse s net = (Ok e, s1) ->
    consumes net s1 es s2 ->
    consumes net s (e :: es) s2.

(** The frame of scenario A as section 8 of the specification prints it:
    its second group has fifteen bytes. *)
Definition spec_scenario_A_frame : bytes :=
  fromhex "f9beb4d9" ++ fromhex "76657261636b000000000000000000"
    ++ fromhex "00000000" ++ fromhex "5df6e0e2".

(** Flipping bit [i] of a byte string, bit 0 being the lowest bit of the
    first byte. *)
Fixpoint flip_bit (i : nat) (l : bytes) : bytes :=
  match l with
  | [] => []
  | b :: t =>
      if (i <? 8)%nat
      then byte.of_Z (Z.lxor (byte.unsigned b) (2 ^ Z.of_nat i)) :: t
      else b :: flip_bit (i - 8) t
  end.

(** Modelled from the spec: the transaction type of [tx.py] is not in the
    module under study; section 6 has it expose [hash()], [id()] and
    [parse(stream) -> Tx].  The stand-in used in examples keeps a
    transaction as its serialization: [parse] takes the stream as it is,
    [hash] is the double hash in reverse byte order and [id] its
    hexadecimal form. *)
Definition RawTx_class : message_class bytes :=
  {| cls_command := b_ "tx"; define_network := true;
     cls_parse := fun s _ => Ok s |}.

Definition RawTx : TxInterface :=
  {| Tx := bytes; Tx_class := RawTx_class;
     Tx_hash := fun t => rev (hash256 t);
     Tx_id := fun t => hex (rev (hash256 t)) |}.

(** A session on [net] with [inbound] waiting on its stream, nothing sent
    and nothing printed. *)
Definition fresh_node (net : network) (inbound : bytes) : SimpleNode :=
  {| node_network := net; logging := false; stream := inbound; sent := [];
     printed := [] |}.

(** ** The rest of the module *)

(** The byte stream a peer writes when it sends the envelopes [es] one
    after the other. *)
Definition frames (net : network) (es : list NetworkEnvelope) : bytes :=
  flat_map (fun e => wire (command e) (payload e) net) es.

(** The messages of the catalog proper: every message but a Generic one,
    whose command is the caller's. *)
Definition catalog_message (m : message) : Prop :=
  match m with
  | Generic _ _ => False
  | _ => True
  end.

(** The fields of a Version message fit the widths [serialize] gives them. *)
Definition version_fits (m : VersionMessage) : Prop :=
  0 <= version m < 2 ^ 32 /\
  0 <= services m < 2 ^ 64 /\
  0 <= timestamp m < 2 ^ 64 /\
  0 <= receiver_services m < 2 ^ 64 /\
  0 <= receiver_port m < 2 ^ 16 /\
  0 <= sender_services m < 2 ^ 64 /\
  0 <= sender_port m < 2 ^ 16 /\
  len (user_agent m) < 2 ^ 64 /\
  0 <= latest_block m < 2 ^ 32.

(** One entry of a GetData payload. *)
Definition getdata_item (item : Z * bytes) : bytes :=
  le_split 4 (fst item) ++ rev (snd item).

(** *** HeadersMessage *)

(** What [HeadersMessage] takes from [block.py] and [helper.py]: the block
    type with its [parse], which reads one block off the stream, its
    [tx_hashes], [check_pow], [prev_block] and [hash], and the helper
    [read_varint], which reads a count off the stream. *)
Record BlockInterface : Type := mkBlockInterface {
  Block : Type;
  Block_parse : bytes -> result Block * bytes;
  tx_hashes : Block -> list bytes;
  check_pow : Block -> bool;
  prev_block : Block -> bytes;
  Block_hash : Block -> bytes;
  read_varint : bytes -> result Z * bytes
}.

Record HeadersMessage (B : BlockInterface) : Type := mkHeadersMessage {
  headers : list (Block B)
}.
Arguments headers {B} _.
Arguments mkHeadersMessage {B} _.

(** The [for] loop of [HeadersMessage.parse]: [n] rounds left, [acc] the
    headers read so far. *)
Fixpoint parse_headers (B : BlockInterface) (n : nat) (s : bytes)
    (acc : list (Block B)) : result (list (Block B)) * bytes :=
  match n with
  | O => (Ok acc, s)
  | S n' =>
      match Block_parse B s with
      | (Raise x, s) => (Raise x, s)
      | (Ok header, s) =>
          let acc := acc ++ [header] in
          if negb (Nat.eqb (length (tx_hashes B header)) 0)
          then (Raise (RuntimeError "number of txs not 0"), s)
          else parse_headers B n' s acc
      end
  end.

(** [HeadersMessage.parse]. *)
Definition HeadersMessage_parse (B : BlockInterface) (s : bytes)
  : result (HeadersMessage B) * bytes :=
  match read_varint B s with
  | (Raise x, s) => (Raise x, s)
  | (Ok num_headers, s) =>
      match parse_headers B (Z.to_nat num_headers) s [] with
      | (Raise x, s) => (Raise x, s)
      | (Ok hs, s) => (Ok (mkHeadersMessage hs), s)
      end
  end.

(** The truth value of [last_block]: [None] and the empty byte string are
    false. *)
Definition truthy (b : option bytes) : bool :=
  match b with
  | None | Some [] => false
  | Some (_ :: _) => true
  end.

(** The loop of [HeadersMessage.is_valid]. *)
Fixpoint is_valid_from (B : BlockInterface) (last_block : option bytes)
    (hs : list (Block B)) : bool :=
  match hs with
  | [] => true
  | h :: rest =>
      if negb (check_pow B h) then false
      else if truthy last_block
              && negb (bytes_eqb (prev_block B h)
                         (match last_block with Some l => l | None => [] end))
      then false
      else is_valid_from B (Some (Block_hash B h)) rest
  end.

(** [HeadersMessage.is_valid]. *)
Definition is_valid {B : BlockInterface} (m : HeadersMessage B) : bool :=
  is_valid_from B None (headers m).

(** [HeadersMessage.__iter__]: the headers in order. *)
Definition HeadersMessage_iter {B : BlockInterface} (m : HeadersMessage B)
  : list (Block B) := headers m.

(** Each header names the hash of the one before it, unless that hash is
    the empty byte string. *)
Fixpoint linked (B : BlockInterface) (hs : list (Block B)) : Prop :=
  match hs with
  | a :: ((b :: _) as rest) =>
      (Block_hash B a = [] \/ prev_block B b = Block_hash B a) /\ linked B rest
  | _ => True
  end.

(** [blocks_read B s hs s']: [Block.parse] called again and again on the
    stream [s] yields [hs] and leaves [s']. *)
Inductive blocks_read (B : BlockInterface) : bytes -> list (Block B) -> bytes -> Prop :=
| blocks_read_nil (s : bytes) : blocks_read B s [] s
| blocks_read_cons (s s1 s2 : bytes) (h : Block B) (hs : list (Block B)) :
    Block_parse B s = (Ok h, s1) ->
    blocks_read B s1 hs s2 ->
    blocks_read B s (h :: hs) s2.

(** Modelled from the spec: [helper.read_varint] is not in the module under
    study; section 6 gives [readVarint(stream) -> uint], the inverse of
    [encodeVarint], and section 4.2 makes a short read a malformed-message
    error. *)
Definition spec_read_varint (s : bytes) : result Z * bytes :=
  match s with
  | [] => (Raise ValueError, s)
  | i :: s =>
      if Byte.eqb i xfd then
        let '(b, s) := read 2 s in (Ok (little_endian_to_int b), s)
      else if Byte.eqb i xfe then
        let '(b, s) := read 4 s in (Ok (little_endian_to_int b), s)
      else if Byte.eqb i xff then
        let '(b, s) := read 8 s in (Ok (little_endian_to_int b), s)
      else (Ok (byte.unsigned i), s)
  end.

(** Modelled from the spec: the block header type of [block.py] is not in
    the module under study; section 6 has it expose [parse(stream)],
    [hash()], [checkProofOfWork()], a previous-block-hash field and a count
    of embedded transactions.  The stand-in used in examples keeps the 80
    bytes of a header and the transaction hashes that follow its count:
    the hash is the double hash of the header in reverse byte order, the
    previous hash is bytes 4 to 36 in reverse order, and the proof of work
    compares the hash, read as a little-endian number, with the target
    that the bits field (bytes 72 to 76) encodes. *)
Record RawBlock : Type := mkRawBlock {
  raw_header : bytes;
  raw_tx_hashes : list bytes
}.

Fixpoint read_hashes (n : nat) (s : bytes) (acc : list bytes) : list bytes * bytes :=
  match n with
  | O => (acc, s)
  | S n' => let '(h, s) := read 32 s in read_hashes n' s (acc ++ [rev h])
  end.

Definition RawBlock_parse (s : bytes) : result RawBlock * bytes :=
  let '(h, s) := read 80 s in
  match spec_read_varint s with
  | (Raise x, s) => (Raise x, s)
  | (Ok n, s) =>
      let '(txs, s) := read_hashes (Z.to_nat n) s [] in
      (Ok {| raw_header := h; raw_tx_hashes := txs |}, s)
  end.

Definition RawBlock_check_pow (b : RawBlock) : bool :=
  let bits := firstn 4 (skipn 72 (raw_header b)) in
  let exponent := byte.unsigned (nth 3 bits x00) in
  let coefficient := little_endian_to_int (firstn 3 bits) in
  let target := coefficient * 256 ^ (exponent - 3) in
  little_endian_to_int (hash256 (raw_header b)) <? target.

Definition RawBlocks : BlockInterface :=
  {| Block := RawBlock;
     Block_parse := RawBlock_parse;
     tx_hashes := raw_tx_hashes;
     check_pow := RawBlock_check_pow;
     prev_block := fun b => rev (firstn 32 (skipn 4 (raw_header b)));
     Block_hash := fun b => rev (hash256 (raw_header b));
     read_varint := spec_read_varint |}.

(** The payload of [HeadersMessageTest.test_parse]. *)
Definition headers_payload : bytes :=
  fromhex "0200000020df3b053dc46f162a9b00c7f0d5124e2676d47bbe7c5d0793a500000000000000ef445fef2ed495c275892206ca533e7411907971013ab83e3b47bd0d692d14d4dc7c835b67d8001ac157e670000000002030eb2540c41025690160a1014c577061596e32e426b712c7ca00000000000000768b89f07044e6130ead292a3f51951adbd2202df447d98789339937fd006bd44880835b67d8001ade09204600".


(** * Properties *)

(** ** The helpers against the vectors of the source *)

Lemma sha256_abc :
  hex (SHA256.sha256 (b_ "abc")) =
  "ba7816bf8f01cfea414140de5dae2223b00361a396177a9cb410ff61f20015ad"%string.
Proof. vm_compute. reflexivity. Qed.

Lemma hash256_empty : firstn 4 (hash256 []) = fromhex "5df6e0e2".
Proof. vm_compute. reflexivity. Qed.

Lemma hash256_version_payload :
  firstn 4 (hash256 (skipn 24 version_frame)) = fromhex "5f1a69d2".
Proof. vm_compute. reflexivity. Qed.

(** [NetworkEnvelopeTest.test_parse] and [test_serialize], second frame. *)
Lemma test_parse_version :
  parse version_frame mainnet =
  (Ok (NetworkEnvelope_init (b_ "version") (skipn 24 version_frame) mainnet), []).
Proof. vm_compute. reflexivity. Qed.

Lemma test_serialize_version :
  (e <- fst (parse version_frame mainnet) ;; serialize e) = Ok version_frame.
Proof. vm_compute. reflexivity. Qed.

(** [VersionMessageTest.test_serialize]. *)
Lemma test_version_serialize :
  (v <- VersionMessage_default {| now := 0; draw := 0 |} (Some 0) (Some (zeros 8)) ;;
   b <- VersionMessage_serialize v ;; Ok (hex b)) =
  Ok "7f11010000000000000000000000000000000000000000000000000000000000000000000000ffff000000008d20000000000000000000000000000000000000ffff000000008d2000000000000000001b2f70726f6772616d6d696e67626c6f636b636861696e3a302e312f0000000001"%string.
Proof. vm_compute. reflexivity. Qed.

(** [GetDataMessageTest.test_serialize]. *)
Lemma test_getdata_serialize :
  (b <- GetDataMessage_serialize
          (add_data FILTERED_BLOCK_DATA_TYPE
             (fromhex "00000000000000beb88910c46f6b442312361c6693a7fb52065b583979844910")
             (add_data FILTERED_BLOCK_DATA_TYPE
                (fromhex "00000000000000cac712b726e4326e596170574c01a16001692510c44025eb30")
                GetDataMessage_init)) ;;
   Ok (hex b)) =
  Ok "020300000030eb2540c41025690160a1014c577061596e32e426b712c7ca00000000000000030000001049847939585b0652fba793661c361223446b6fc41089b8be00000000000000"%string.
Proof. vm_compute. reflexivity. Qed.

(** ** Scenario A: the verack frame *)

(** The frame as the specification prints it is three zero bytes longer than
    the frame of [NetworkEnvelopeTest]: the command field takes twelve of the
    fifteen bytes, the length field the next four zero bytes, and the
    checksum read is 0000005d. *)
Lemma scenario_A_spec_frame_rejected :
  length spec_scenario_A_frame = 27%nat /\
  parse spec_scenario_A_frame mainnet = (Raise checksum_mismatch, [xf6; xe0; xe2]).
Proof. split; vm_compute; reflexivity. Qed.

(** C6, amended. Parsing the 24-byte frame
    f9beb4d9 76657261636b000000000000 00000000 5df6e0e2 of
    [NetworkEnvelopeTest] as a mainnet envelope succeeds with command
    [verack] and an empty payload, leaves nothing on the stream, and
    serializing the parsed envelope gives the same bytes back. *)
Theorem scenario_A_verack_frame :
  verack_frame =
    fromhex "f9beb4d9" ++ fromhex "76657261636b000000000000" ++ fromhex "00000000"
      ++ fromhex "5df6e0e2" /\
  exists e,
    parse verack_frame mainnet = (Ok e, []) /\
    command e = b_ "verack" /\
    payload e = [] /\
    serialize e = Ok verack_frame.
Proof.
  split; [reflexivity|].
  exists (NetworkEnvelope_init (b_ "verack") [] mainnet).
  repeat split; vm_compute; reflexivity.
Qed.

(** ** Byte strings, streams and the helpers *)

Lemma pair_inv {A B : Type} (a c : A) (b d : B) : (a, b) = (c, d) -> a = c /\ b = d.
Proof. intros H. split; congruence. Qed.

Lemma Ok_inv {A : Type} (a b : A) : Ok a = Ok b -> a = b.
Proof. congruence. Qed.

Lemma bytes_eqb_eq (a b : bytes) : bytes_eqb a b = true <-> a = b.
Proof.
  unfold bytes_eqb. destruct (list_eq_dec Byte.byte_eq_dec a b); split;
    congruence.
Qed.

Lemma bytes_eqb_refl (a : bytes) : bytes_eqb a a = true.
Proof. apply bytes_eqb_eq. reflexivity. Qed.

Lemma bytes_eqb_neq (a b : bytes) : a <> b -> bytes_eqb a b = false.
Proof.
  intros H. destruct (bytes_eqb a b) eqn:E; [|reflexivity].
  apply bytes_eqb_eq in E. contradiction.
Qed.

Lemma bytes_eqb_false (a b : bytes) : bytes_eqb a b = false -> a <> b.
Proof. intros E H. subst. rewrite bytes_eqb_refl in E. discriminate. Qed.

Lemma firstn_app_exact {A : Type} (n : nat) (a b : list A) :
  length a = n -> firstn n (a ++ b) = a.
Proof.
  intros <-. rewrite firstn_app, Nat.sub_diag, firstn_all, firstn_O.
  apply app_nil_r.
Qed.

Lemma skipn_app_exact {A : Type} (n : nat) (a b : list A) :
  length a = n -> skipn n (a ++ b) = b.
Proof.
  intros <-. rewrite skipn_app, Nat.sub_diag, skipn_all. reflexivity.
Qed.

Lemma read_app (n : Z) (a b : bytes) :
  length a = Z.to_nat n -> read n (a ++ b) = (a, b).
Proof.
  intros H. unfold read.
  rewrite firstn_app_exact, skipn_app_exact by exact H. reflexivity.
Qed.

Lemma read_length (n : Z) (s : bytes) :
  (length (fst (read n s)) <= Z.to_nat n)%nat /\
  (length (snd (read n s)) <= length s)%nat.
Proof.
  unfold read. cbn. split.
  - apply firstn_le_length.
  - rewrite length_skipn. lia.
Qed.

Lemma zeros_length (n : Z) : length (zeros n) = Z.to_nat n.
Proof. apply repeat_length. Qed.

Lemma int_to_little_endian_ok (n : Z) (w : nat) :
  0 <= n < 2 ^ (8 * Z.of_nat w) ->
  int_to_little_endian n w = Ok (le_split w n).
Proof.
  intros [H0 H1]. unfold int_to_little_endian.
  destruct (Z.leb_spec 0 n); [|lia].
  destruct (Z.ltb_spec n (2 ^ (8 * Z.of_nat w))); [|lia].
  reflexivity.
Qed.

Lemma int_to_little_endian_overflow (n : Z) (w : nat) :
  2 ^ (8 * Z.of_nat w) <= n ->
  int_to_little_endian n w = Raise OverflowError.
Proof.
  intros H. unfold int_to_little_endian.
  destruct (Z.ltb_spec n (2 ^ (8 * Z.of_nat w))); [lia|].
  rewrite andb_false_r. reflexivity.
Qed.

Lemma int_to_little_endian_length (n : Z) (w : nat) (b : bytes) :
  int_to_little_endian n w = Ok b -> length b = w /\ 0 <= n < 2 ^ (8 * Z.of_nat w).
Proof.
  unfold int_to_little_endian.
  destruct (Z.leb_spec 0 n) as [H0|H0];
    destruct (Z.ltb_spec n (2 ^ (8 * Z.of_nat w))) as [H1|H1];
    cbv [andb]; intros E; try discriminate E.
  inversion E. split; [apply length_le_split | split; assumption].
Qed.

Lemma little_endian_round_trip (n : Z) (w : nat) :
  0 <= n < 2 ^ (8 * Z.of_nat w) ->
  little_endian_to_int (le_split w n) = n.
Proof.
  intros H. unfold little_endian_to_int. rewrite le_combine_split.
  apply Z.mod_small. replace (Z.of_nat w * 8) with (8 * Z.of_nat w) by lia.
  exact H.
Qed.

Lemma little_endian_to_int_bound (b : bytes) :
  (length b <= 4)%nat -> 0 <= little_endian_to_int b < 2 ^ 32.
Proof.
  intros H. unfold little_endian_to_int.
  pose proof (le_combine_bound b) as [H0 H1]. split; [exact H0|].
  eapply Z.lt_le_trans; [exact H1|].
  apply Z.pow_le_mono_r; lia.
Qed.

(** *** The hash returns 32 bytes *)

Lemma round_length (s : list Z) (kw : Z * Z) :
  length s = 8%nat -> length (SHA256.round s kw) = 8%nat.
Proof.
  intros H. do 9 (destruct s as [|? s]; try discriminate H). reflexivity.
Qed.

Lemma fold_round_length (l : list (Z * Z)) (s : list Z) :
  length s = 8%nat -> length (fold_left SHA256.round l s) = 8%nat.
Proof.
  revert s. induction l as [|kw l IH]; intros s H; cbn; [exact H|].
  apply IH, round_length, H.
Qed.

Lemma add_words_length (x y : list Z) :
  length (SHA256.add_words x y) = Nat.min (length x) (length y).
Proof.
  revert y. induction x as [|a x IH]; intros [|b y]; cbn; try reflexivity.
  rewrite IH. reflexivity.
Qed.

Lemma compress_length (h : list Z) (block : bytes) :
  length h = 8%nat -> length (SHA256.compress h block) = 8%nat.
Proof.
  intros H. unfold SHA256.compress.
  rewrite add_words_length, fold_round_length, H; [reflexivity | exact H].
Qed.

Lemma fold_compress_length (blocks : list bytes) (h : list Z) :
  length h = 8%nat -> length (fold_left SHA256.compress blocks h) = 8%nat.
Proof.
  revert h. induction blocks as [|b l IH]; intros h H; cbn; [exact H|].
  apply IH, compress_length, H.
Qed.

Lemma flat_map_be_split_length (l : list Z) :
  length (flat_map (SHA256.be_split 4) l) = (4 * length l)%nat.
Proof.
  induction l as [|a l IH]; [reflexivity|].
  cbn [flat_map]. rewrite length_app, IH. unfold SHA256.be_split.
  rewrite length_rev, length_le_split. cbn [length]. lia.
Qed.

Lemma sha256_length (m : bytes) : length (SHA256.sha256 m) = 32%nat.
Proof.
  unfold SHA256.sha256. rewrite flat_map_be_split_length, fold_compress_length;
    reflexivity.
Qed.

Lemma hash256_length (s : bytes) : length (hash256 s) = 32%nat.
Proof. apply sha256_length. Qed.

Lemma checksum_length (s : bytes) : length (firstn 4 (hash256 s)) = 4%nat.
Proof. rewrite length_firstn, hash256_length. reflexivity. Qed.

(** *** Stripping the padding *)

Lemma lstrip_repeat (k : nat) (l : bytes) : lstrip (repeat x00 k ++ l) = lstrip l.
Proof. induction k as [|k IH]; [reflexivity | exact IH]. Qed.

Lemma lstrip_hd (l : bytes) : hd x01 l <> x00 -> lstrip l = l.
Proof.
  destruct l as [|b t]; [reflexivity|]. cbn [hd]. intros H.
  destruct b; try reflexivity. contradiction.
Qed.

Lemma hd_rev (l : bytes) (d : byte) : hd d (rev l) = last l d.
Proof.
  induction l as [|a l _] using rev_ind; [reflexivity|].
  rewrite rev_app_distr, last_last. reflexivity.
Qed.

Lemma strip_padded (c : bytes) (k : nat) :
  no_nul_ends c -> strip (c ++ repeat x00 k) = c.
Proof.
  intros [Hhd Hlast]. unfold strip, rstrip.
  destruct c as [|b t].
  - cbn [app]. rewrite <- (app_nil_r (repeat x00 k)), lstrip_repeat. reflexivity.
  - rewrite (lstrip_hd ((b :: t) ++ repeat x00 k)) by exact Hhd.
    rewrite rev_app_distr, rev_repeat, lstrip_repeat.
    rewrite lstrip_hd by (rewrite hd_rev; exact Hlast).
    apply rev_involutive.
Qed.

(** ** The envelope on the wire *)

Arguments hash256 : simpl never.

Lemma MAGIC_length (net : network) : length (MAGIC net) = 4%nat.
Proof. destruct net; reflexivity. Qed.

Lemma MAGIC_not_empty (net : network) : bytes_eqb (MAGIC net) [] = false.
Proof. destruct net; reflexivity. Qed.

Lemma serialize_wire (c p : bytes) (net : network) :
  len p < 2 ^ 32 ->
  serialize (NetworkEnvelope_init c p net) = Ok (wire c p net).
Proof.
  intros H. unfold serialize, wire, NetworkEnvelope_init.
  cbn [magic command payload].
  rewrite int_to_little_endian_ok by (unfold len in *; cbn; lia).
  cbn [bind]. rewrite <- !app_assoc. reflexivity.
Qed.

Lemma serialize_overflow (c p : bytes) (net : network) :
  2 ^ 32 <= len p ->
  serialize (NetworkEnvelope_init c p net) = Raise OverflowError.
Proof.
  intros H. unfold serialize, NetworkEnvelope_init. cbn [magic command payload].
  rewrite int_to_little_endian_overflow by (cbn; lia). reflexivity.
Qed.

Lemma parse_wire (c p rest : bytes) (net : network) :
  (length c <= 12)%nat ->
  len p < 2 ^ 32 ->
  parse (wire c p net ++ rest) net =
  (Ok (NetworkEnvelope_init (strip (c ++ zeros (12 - len c))) p net), rest).
Proof.
  intros Hc Hp. unfold parse, wire. rewrite <- !app_assoc.
  rewrite read_app by (rewrite MAGIC_length; reflexivity).
  rewrite MAGIC_not_empty, bytes_eqb_refl. cbn [negb].
  rewrite (app_assoc c).
  rewrite read_app
    by (rewrite length_app, zeros_length; unfold len; lia).
  rewrite read_app by (rewrite length_le_split; reflexivity).
  rewrite read_app by (rewrite checksum_length; reflexivity).
  rewrite little_endian_round_trip by (unfold len in *; cbn; lia).
  rewrite read_app by (unfold len; lia).
  rewrite bytes_eqb_refl. reflexivity.
Qed.

(** ** Round trip of the envelope *)

(** A command that ends with a zero byte does not come back from the wire,
    and a payload of 2^32 bytes does not go onto it. *)
Lemma envelope_round_trip_fails :
  (let e := NetworkEnvelope_init (b_ "tx" ++ [x00]) [] mainnet in
   magic e = MAGIC mainnet /\ (length (command e) <= 12)%nat /\
   exists f e', serialize e = Ok f /\ parse f mainnet = (Ok e', []) /\ e' <> e) /\
  (let e := NetworkEnvelope_init (b_ "tx") (zeros (2 ^ 32)) mainnet in
   magic e = MAGIC mainnet /\ (length (command e) <= 12)%nat /\
   serialize e = Raise OverflowError).
Proof.
  split.
  - cbv zeta. split; [reflexivity|]. split; [cbn; lia|].
    exists (wire (b_ "tx" ++ [x00]) [] mainnet),
           (NetworkEnvelope_init (b_ "tx") [] mainnet).
    split; [vm_compute; reflexivity|].
    split; [vm_compute; reflexivity|].
    intros H. apply (f_equal command) in H. vm_compute in H. discriminate H.
  - cbv zeta. split; [reflexivity|]. split; [cbn; lia|].
    apply serialize_overflow. unfold len. rewrite zeros_length.
    rewrite Z2Nat.id; lia.
Qed.

(** C1, amended. For every envelope whose magic is the configured network's,
    whose command has at most 12 bytes and no zero byte at either end, and
    whose payload is shorter than 2^32 bytes, [serialize] returns a frame
    and [parse] of that frame returns the envelope, with nothing left on the
    stream; and for every frame in the wire layout around such a command
    and payload, [parse] returns an envelope whose serialization is the
    frame. *)
Theorem envelope_round_trip (net : network) :
  (forall e, valid_envelope net e ->
     exists f, serialize e = Ok f /\ parse f net = (Ok e, [])) /\
  (forall f, well_formed_frame net f ->
     exists e, parse f net = (Ok e, []) /\ serialize e = Ok f).
Proof.
  split.
  - intros [c p m] (Hm & Hc & Hn & Hp). cbn in Hm, Hc, Hn, Hp. subst m.
    exists (wire c p net). split; [apply (serialize_wire c p net Hp)|].
    rewrite <- (app_nil_r (wire c p net)), parse_wire by assumption.
    unfold zeros. rewrite strip_padded by assumption. reflexivity.
  - intros f (c & p & Hc & Hn & Hp & ->).
    exists (NetworkEnvelope_init c p net).
    split; [|apply serialize_wire; assumption].
    rewrite <- (app_nil_r (wire c p net)), parse_wire by assumption.
    unfold zeros. rewrite strip_padded by assumption. reflexivity.
Qed.

Lemma envelope_round_trip_witness :
  valid_envelope mainnet (NetworkEnvelope_init (b_ "verack") [] mainnet) /\
  well_formed_frame mainnet verack_frame /\
  (exists f, serialize (NetworkEnvelope_init (b_ "verack") [] mainnet) = Ok f /\
             parse f mainnet = (Ok (NetworkEnvelope_init (b_ "verack") [] mainnet), [])) /\
  (exists e, parse verack_frame mainnet = (Ok e, []) /\ serialize e = Ok verack_frame).
Proof.
  assert (Hv : valid_envelope mainnet (NetworkEnvelope_init (b_ "verack") [] mainnet)).
  { repeat split; try (vm_compute; congruence). cbn. lia. }
  assert (Hf : well_formed_frame mainnet verack_frame).
  { exists (b_ "verack"), []. repeat split; try (vm_compute; congruence).
    cbn. lia. }
  split; [exact Hv|]. split; [exact Hf|]. split.
  - exact (proj1 (envelope_round_trip mainnet) _ Hv).
  - exact (proj2 (envelope_round_trip mainnet) _ Hf).
Defined.

(** ** The command field of a serialized envelope *)

Lemma serialize_returns (c p : bytes) (net : network) (f : bytes) :
  serialize (NetworkEnvelope_init c p net) = Ok f ->
  len p < 2 ^ 32 /\ f = wire c p net.
Proof.
  intros H. assert (Hp : len p < 2 ^ 32).
  { destruct (Z.lt_ge_cases (len p) (2 ^ 32)) as [Hlt|Hge]; [exact Hlt|].
    rewrite serialize_overflow in H by exact Hge. discriminate H. }
  split; [exact Hp|]. rewrite serialize_wire in H by exact Hp. congruence.
Qed.

Lemma wire_length (c p : bytes) (net : network) :
  len (wire c p net) = 12 + len c + Z.max 0 (12 - len c) + len p.
Proof.
  unfold wire, len. rewrite !length_app, MAGIC_length, zeros_length,
    length_le_split, checksum_length. unfold len. lia.
Qed.

(** A 2-byte command with a payload of 2^32 bytes: the command has at most
    12 bytes, yet [serialize] raises and there is no frame to have the fixed
    header. *)
Lemma serialize_command_field_fails :
  let e := NetworkEnvelope_init (b_ "tx") (zeros (2 ^ 32)) mainnet in
  (length (command e) <= 12)%nat /\
  serialize e = Raise OverflowError /\
  ~ (exists f, serialize e = Ok f /\ has_fixed_header e f).
Proof.
  cbv zeta.
  assert (H : serialize (NetworkEnvelope_init (b_ "tx") (zeros (2 ^ 32)) mainnet)
              = Raise OverflowError).
  { apply serialize_overflow. unfold len. rewrite zeros_length.
    rewrite Z2Nat.id; lia. }
  split; [cbn; lia|]. split; [exact H|].
  intros (f & Hf & _). rewrite H in Hf. discriminate Hf.
Qed.

(** C10, amended. For a payload shorter than 2^32 bytes [serialize] returns
    a frame, and the frame has the fixed header -- a 12-byte command field
    holding the command right-padded with zero bytes, and a total length of
    24 + payload length -- if and only if the command has at most 12 bytes;
    for a longer command the frame holds the command unpadded and
    untruncated, is longer than 24 + payload length by the excess, and does
    not have the fixed header.  For a payload of 2^32 bytes or more
    [serialize] raises [OverflowError] and there is no frame. *)
Theorem serialize_command_field (c p : bytes) (net : network) :
  let e := NetworkEnvelope_init c p net in
  (len p < 2 ^ 32 ->
     exists f,
       serialize e = Ok f /\
       (has_fixed_header e f <-> (length c <= 12)%nat) /\
       ((12 < length c)%nat ->
          f = MAGIC net ++ c ++ le_split 4 (len p) ++ firstn 4 (hash256 p) ++ p /\
          len f = 12 + len c + len p /\
          ~ has_fixed_header e f)) /\
  (2 ^ 32 <= len p -> serialize e = Raise OverflowError).
Proof.
  cbv zeta. split; [|apply serialize_overflow].
  intros Hp. exists (wire c p net). split; [apply serialize_wire, Hp|].
  assert (Hiff : has_fixed_header (NetworkEnvelope_init c p net) (wire c p net)
                 <-> (length c <= 12)%nat).
  { unfold has_fixed_header. cbn [command payload NetworkEnvelope_init].
    rewrite wire_length. split.
    - intros [_ Hl]. unfold len in *. lia.
    - intros Hc. split; [|unfold len in *; lia].
      unfold wire.
      rewrite skipn_app_exact by apply MAGIC_length.
      apply firstn_app_exact.
      rewrite length_app, zeros_length. unfold len. lia. }
  split; [exact Hiff|]. intros Hc. split; [|split].
  - unfold wire, zeros.
    replace (Z.to_nat (12 - len c)) with 0%nat by (unfold len; lia).
    cbn [repeat]. rewrite app_nil_r. reflexivity.
  - rewrite wire_length. unfold len in *. lia.
  - rewrite Hiff. lia.
Qed.

Lemma serialize_command_field_witness :
  exists f,
    serialize (NetworkEnvelope_init (b_ "verack") [] mainnet) = Ok f /\
    has_fixed_header (NetworkEnvelope_init (b_ "verack") [] mainnet) f.
Proof.
  destruct (proj1 (serialize_command_field (b_ "verack") [] mainnet) eq_refl)
    as (f & Hs & Hiff & _).
  exists f. split; [exact Hs|]. apply (proj2 Hiff). cbn. lia.
Defined.

(** A 13-byte command: the frame has 25 bytes before the empty payload. *)
Lemma serialize_long_command :
  serialize (NetworkEnvelope_init (b_ "getheadersxyz") [] mainnet) =
  Ok (fromhex "f9beb4d9" ++ b_ "getheadersxyz" ++ fromhex "00000000"
        ++ fromhex "5df6e0e2").
Proof. vm_compute. reflexivity. Qed.

(** ** Failures on the magic *)




(** ** Scenario B: GetHeaders with the stop hash left out *)

(** C5. A GetHeadersMessage built with version 70015, one hash, a 32-byte
    start block and no end block has 32 zero bytes as its end block, and
    serializes to the version on 4 little-endian bytes (7f110100), the
    varint of 1 (01), the start hash in reverse byte order on 32 bytes, and
    32 zero bytes, in that order: 69 bytes in all. *)
Theorem getheaders_default_stop (start : bytes) :
  length start = 32%nat ->
  exists m,
    GetHeadersMessage_init 70015 1 (Some start) None = Ok m /\
    end_block m = repeat x00 32 /\
    int_to_little_endian 70015 4 = Ok [x7f; x11; x01; x00] /\
    encode_varint 1 = Ok [x01] /\
    GetHeadersMessage_serialize m =
      Ok ([x7f; x11; x01; x00] ++ [x01] ++ rev start ++ repeat x00 32) /\
    length (rev start) = 32%nat /\
    length ([x7f; x11; x01; x00] ++ [x01] ++ rev start ++ repeat x00 32) = 69%nat.
Proof.
  intros H. eexists. split; [reflexivity|].
  split; [reflexivity|]. split; [reflexivity|]. split; [reflexivity|].
  split; [reflexivity|]. split.
  - rewrite length_rev. exact H.
  - rewrite !length_app, length_rev, repeat_length, H. reflexivity.
Qed.

(** [GetHeadersMessageTest.test_serialize]. *)
Lemma getheaders_default_stop_witness :
  let start :=
    fromhex "0000000000000000001237f46acddf58578a37e213d2a6edc4884a2fcad05ba3" in
  exists m,
    GetHeadersMessage_init 70015 1 (Some start) None = Ok m /\
    (b <- GetHeadersMessage_serialize m ;; Ok (hex b)) =
    Ok "7f11010001a35bd0ca2f4a88c4eda6d213e2378a5758dfcd6af437120000000000000000000000000000000000000000000000000000000000000000000000000000000000"%string.
Proof.
  cbv zeta.
  destruct (getheaders_default_stop
              (fromhex "0000000000000000001237f46acddf58578a37e213d2a6edc4884a2fcad05ba3")
              eq_refl) as (m & Hi & _ & _ & _ & Hs & _).
  exists m. split; [exact Hi|]. rewrite Hs. vm_compute. reflexivity.
Defined.

(** ** Ping and Pong *)

(** [PingMessage]: the serialization is the nonce, and parsing it, as
    [wait_for] does, gives the nonce back. *)
Lemma ping_round_trip (n : bytes) :
  length n = 8%nat ->
  message_serialize (Ping n) = Ok n /\
  cls_parse PingMessage_class n None = Ok (Ping n).
Proof.
  intros H. split; [reflexivity|].
  cbn. unfold PingMessage_parse_body, read.
  rewrite firstn_all2 by (rewrite H; cbn; lia). reflexivity.
Qed.

(** C7, on the code. [PongMessage.parse] is written without [@classmethod]:
    the serialization of a Pong is its nonce, as for a Ping, but the call
    [PongMessage.parse(stream)] raises [TypeError] where
    [PingMessage.parse(stream)] returns the Ping with the same nonce; so does
    a wait for a Pong on a stream that holds a pong frame. *)
Theorem pong_parse_raises (n : bytes) :
  message_serialize (Pong n) = Ok n /\
  cls_parse PongMessage_class n None =
    Raise (TypeError "PongMessage.parse() missing 1 required positional argument: 's'") /\
  cls_parse PingMessage_class n None = Ok (Ping (firstn 8 n)).
Proof. repeat split. Qed.

(** ** The default nonce of a Version message *)

(** For a draw below 2^64 the default nonce has 8 bytes. *)
Lemma default_nonce_in_range (env : ambient) :
  0 <= draw env < 2 ^ 64 ->
  exists v, VersionMessage_default env None None = Ok v /\
            length (nonce v) = 8%nat /\
            little_endian_to_int (nonce v) = draw env.
Proof.
  intros H. unfold VersionMessage_default, VersionMessage_init.
  rewrite int_to_little_endian_ok by (cbn; lia). cbn [bind].
  eexists. split; [reflexivity|]. cbn [nonce].
  split; [apply length_le_split|].
  apply little_endian_round_trip. cbn. lia.
Qed.

(** C9, on the code. [randint(0, 2**64)] includes its upper end: 2^64 is a
    draw the default generator can produce, it is not below 2^64, its
    encoding on 8 bytes raises [OverflowError], and so does the construction
    of a Version message without an explicit nonce. *)
Theorem default_nonce_overflow (t : Z) :
  randint 0 (2 ^ 64) (2 ^ 64) /\
  ~ (2 ^ 64 < 2 ^ 64) /\
  int_to_little_endian (2 ^ 64) 8 = Raise OverflowError /\
  VersionMessage_default {| now := t; draw := 2 ^ 64 |} None None =
    Raise OverflowError.
Proof.
  split; [unfold randint; lia|]. split; [lia|]. split; reflexivity.
Qed.

(** ** The wait loop *)

Lemma parse_ok_inv (s s' : bytes) (net : network) (e : NetworkEnvelope) :
  parse s net = (Ok e, s') ->
  magic e = MAGIC net /\
  len (payload e) < 2 ^ 32 /\
  firstn 4 (hash256 (payload e)) = fst (read 4 (snd (read 4 (snd (read 12 (snd (read 4 s))))))) /\
  (length s' < length s)%nat.
Proof.
  unfold parse. cbv beta iota zeta delta [read].
  destruct (bytes_eqb (firstn (Z.to_nat 4) s) []) eqn:E1; [discriminate|].
  destruct (bytes_eqb (firstn (Z.to_nat 4) s) (MAGIC net)) eqn:E2;
    cbn [negb]; [|discriminate].
  match goal with
  | |- context [bytes_eqb ?a ?b] => destruct (bytes_eqb a b) eqn:E3
  end; cbn [negb]; [|discriminate].
  intros H. apply pair_inv in H. destruct H as [He Hs]. apply Ok_inv in He.
  subst e s'. cbn [magic payload NetworkEnvelope_init fst snd].
  apply bytes_eqb_eq in E2, E3.
  split; [reflexivity|]. split; [|split].
  - match goal with
    | |- len (firstn (Z.to_nat (little_endian_to_int ?b)) ?x) < _ =>
        pose proof (little_endian_to_int_bound b (firstn_le_length _ _)) as Hb;
        pose proof (firstn_le_length (Z.to_nat (little_endian_to_int b)) x)
    end.
    unfold len. lia.
  - exact E3.
  - assert (H4 : length (firstn (Z.to_nat 4) s) = 4%nat)
      by (rewrite E2; apply MAGIC_length).
    rewrite length_firstn in H4.
    rewrite !length_skipn. change (Z.to_nat 4) with 4%nat in H4. lia.
Qed.

Lemma send_ok (m : message) (p : bytes) (node : SimpleNode) :
  message_serialize m = Ok p ->
  len p < 2 ^ 32 ->
  exists node',
    send m node = (Ok tt, node') /\
    sent node' = sent node ++ [wire (message_command m) p (node_network node)] /\
    stream node' = stream node /\
    node_network node' = node_network node.
Proof.
  intros Hs Hp. unfold send. rewrite Hs.
  destruct (logging node).
  - unfold print at 1. cbn [node_network]. rewrite serialize_wire by exact Hp.
    eexists. split; [reflexivity|]. cbn. repeat split.
  - rewrite serialize_wire by exact Hp.
    eexists. split; [reflexivity|]. cbn. repeat split.
Qed.

Lemma auto_respond_ok (e : NetworkEnvelope) (node : SimpleNode) :
  len (payload e) < 2 ^ 32 ->
  exists node',
    auto_respond e node = (Ok tt, node') /\
    sent node' = sent node ++ auto_replies (node_network node) e /\
    stream node' = stream node /\
    node_network node' = node_network node.
Proof.
  intros Hp. unfold auto_respond, auto_replies.
  destruct (bytes_eqb (command e) (b_ "version")).
  - apply (send_ok VerAck [] node); [reflexivity | cbn; lia].
  - destruct (bytes_eqb (command e) (b_ "ping")).
    + apply (send_ok (Pong (payload e)) (payload e) node); [reflexivity | exact Hp].
    + exists node. rewrite app_nil_r. repeat split.
Qed.

Lemma node_read_inv (node node' : SimpleNode) (r : result NetworkEnvelope) :
  node_read node = (r, node') ->
  parse (stream node) (node_network node) = (r, stream node') /\
  sent node' = sent node /\
  node_network node' = node_network node.
Proof.
  unfold node_read.
  destruct (parse (stream node) (node_network node)) as [[e|x] s0]; intros H;
    apply pair_inv in H; destruct H as [<- <-].
  - destruct (logging (set_stream s0 node)); cbn; repeat split.
  - cbn. repeat split.
Qed.

(** *** The dictionary of requested classes *)

Lemma dict_mem_In {M : Type} (classes : list (message_class M)) (k : bytes) :
  dict_mem (command_to_class classes) k = true <-> In k (map cls_command classes).
Proof.
  unfold dict_mem, command_to_class. rewrite existsb_exists. split.
  - intros [[k' cls] [Hin Heq]]. cbn [fst] in Heq. apply bytes_eqb_eq in Heq.
    subst k'. apply in_map_iff in Hin. destruct Hin as [m [Hm Hin]].
    apply pair_inv in Hm. destruct Hm as [Hm _]. rewrite <- Hm.
    apply in_map, Hin.
  - intros Hin. apply in_map_iff in Hin. destruct Hin as [m [Hm Hin]].
    exists (cls_command m, m). split.
    + apply in_map_iff. exists m. split; [reflexivity | exact Hin].
    + cbn [fst]. rewrite Hm. apply bytes_eqb_refl.
Qed.

Lemma dict_get_Some {M : Type} (classes : list (message_class M)) (k : bytes)
    (cls : message_class M) :
  dict_get (command_to_class classes) k = Some cls ->
  In cls classes /\ cls_command cls = k.
Proof.
  unfold dict_get, command_to_class.
  destruct (find _ _) as [[k' c]|] eqn:E; [|discriminate].
  cbn [option_map snd]. intros H. apply find_some in E. destruct E as [Hin Heq].
  assert (c = cls) by congruence. subst c.
  cbn [fst] in Heq. apply bytes_eqb_eq in Heq. subst k'.
  apply in_rev, in_map_iff in Hin. destruct Hin as [m [Hm Hin]].
  apply pair_inv in Hm. destruct Hm as [Hk Hm]. subst m. split; [exact Hin|].
  exact Hk.
Qed.

Lemma dict_mem_get {M : Type} (classes : list (message_class M)) (k : bytes) :
  dict_mem (command_to_class classes) k = true ->
  exists cls, dict_get (command_to_class classes) k = Some cls.
Proof.
  intros H. unfold dict_get.
  destruct (find _ _) as [kv|] eqn:E; [exists (snd kv); reflexivity|].
  exfalso. unfold dict_mem in H. apply existsb_exists in H.
  destruct H as [kv [Hin Heq]].
  assert (Hrev : In kv (rev (command_to_class classes)))
    by (apply in_rev; rewrite rev_involutive; exact Hin).
  apply (find_none _ _ E) in Hrev. congruence.
Qed.

(** *** The loop *)

Section WaitLoop.

Context {M : Type}.
Variable d : list (bytes * message_class M).

Lemma wait_loop_spec (fuel : nat) :
  forall (node node' : SimpleNode) (r : result NetworkEnvelope),
    wait_loop fuel d node = Some (r, node') ->
    exists consumed s_mid,
      consumes (node_network node) (stream node) consumed s_mid /\
      sent node' = sent node ++ flat_map (auto_replies (node_network node)) consumed /\
      node_network node' = node_network node /\
      match r with
      | Ok e =>
          exists pre,
            consumed = pre ++ [e] /\
            Forall (fun e' => dict_mem d (command e') = false) pre /\
            dict_mem d (command e) = true /\
            stream node' = s_mid
      | Raise x =>
          Forall (fun e' => dict_mem d (command e') = false) consumed /\
          parse s_mid (node_network node) = (Raise x, stream node')
      end.
Proof.
  induction fuel as [|fuel IH]; intros node node' r H; cbn [wait_loop] in H;
    [discriminate H|].
  destruct (node_read node) as [[e|x] n1] eqn:Er;
    apply node_read_inv in Er; destruct Er as (Hp & Hs1 & Hn1).
  - destruct (parse_ok_inv _ _ _ _ Hp) as (_ & Hb & _ & _).
    destruct (auto_respond_ok e n1 Hb) as (n2 & Ha & Hs2 & Hst2 & Hn2).
    rewrite Ha in H. rewrite Hn1 in Hs2.
    destruct (dict_mem d (command e)) eqn:Em.
    + assert (r = Ok e /\ node' = n2) as [-> ->] by (split; congruence).
      exists [e], (stream n1). split; [|split; [|split]].
      * eapply consumes_cons; [exact Hp | apply consumes_nil].
      * cbn [flat_map]. rewrite app_nil_r, Hs2, Hs1. reflexivity.
      * congruence.
      * exists []. repeat split; [constructor | exact Em | exact Hst2].
    + apply IH in H. destruct H as (consumed & s_mid & Hc & Hsent & Hnet & Hr).
      assert (Hnn : node_network n2 = node_network node) by congruence.
      rewrite Hnn in Hc, Hsent, Hr. rewrite Hst2 in Hc.
      exists (e :: consumed), s_mid. split; [|split; [|split]].
      * eapply consumes_cons; [exact Hp | exact Hc].
      * cbn [flat_map]. rewrite Hsent, Hs2, Hs1, <- app_assoc. reflexivity.
      * congruence.
      * destruct r as [e'|x].
        -- destruct Hr as (pre & -> & Hpre & He' & Hst).
           exists (e :: pre). repeat split; try assumption.
           constructor; assumption.
        -- destruct Hr as [Hall Hparse]. split; [|exact Hparse].
           constructor; assumption.
  - assert (r = Raise x /\ node' = n1) as [-> ->] by (split; congruence).
    exists [], (stream node). split; [|split; [|split; [|split]]].
    + apply consumes_nil.
    + cbn [flat_map]. rewrite app_nil_r. exact Hs1.
    + exact Hn1.
    + constructor.
    + exact Hp.
Qed.

Lemma wait_loop_fuel (fuel : nat) :
  forall node : SimpleNode,
    (length (stream node) < fuel)%nat -> wait_loop fuel d node <> None.
Proof.
  induction fuel as [|fuel IH]; intros node Hlt; [lia|]. cbn [wait_loop].
  destruct (node_read node) as [[e|x] n1] eqn:Er; [|discriminate].
  apply node_read_inv in Er. destruct Er as (Hp & _ & _).
  destruct (parse_ok_inv _ _ _ _ Hp) as (_ & Hb & _ & Hlen).
  destruct (auto_respond_ok e n1 Hb) as (n2 & Ha & _ & Hst2 & _).
  rewrite Ha. destruct (dict_mem d (command e)); [discriminate|].
  apply IH. rewrite Hst2. lia.
Qed.

End WaitLoop.

(** [wait_for] returns or raises on every stream: the fuel never runs out. *)
Lemma wait_for_returns {M : Type} (classes : list (message_class M))
    (node : SimpleNode) :
  exists r node', wait_for classes node = Some (r, node').
Proof.
  unfold wait_for.
  destruct (wait_loop _ _ node) as [[[e|x] n1]|] eqn:E.
  - destruct (dict_get _ _) as [cls|]; [|eexists; eexists; reflexivity].
    destruct (define_network cls); eexists; eexists; reflexivity.
  - eexists; eexists; reflexivity.
  - exfalso. apply (wait_loop_fuel _ _ node) in E; [exact E | lia].
Qed.

(** C2. Every call of [wait_for] on a stream returns or raises, and in the
    course of it: the frames sent are, for each envelope read and in the
    order read, exactly one VerAck frame if its command is [version],
    exactly one Pong frame with the payload of the Ping if its command is
    [ping], and none otherwise, whether or not Version or Ping is among the
    requested classes; no envelope before the last one read has a requested
    command; and either the last envelope read has the command of a
    requested class and the outcome is that class's [parse] on its payload,
    or reading failed before any requested command arrived and the outcome
    is that failure.  In particular a returned message comes from a
    requested command, decoded by the parser of that class. *)
Theorem wait_for_dispatch {M : Type} (classes : list (message_class M))
    (node : SimpleNode) :
  let net := node_network node in
  let requested (e : NetworkEnvelope) := In (command e) (map cls_command classes) in
  exists r node' consumed,
    wait_for classes node = Some (r, node') /\
    sent node' = sent node ++ flat_map (auto_replies net) consumed /\
    ((exists pre last cls,
        consumed = pre ++ [last] /\
        consumes net (stream node) consumed (stream node') /\
        Forall (fun e => ~ requested e) pre /\
        requested last /\
        In cls classes /\ cls_command cls = command last /\
        r = cls_parse cls (payload last)
              (if define_network cls then Some net else None))
     \/
     (exists x s_mid,
        r = Raise x /\
        consumes net (stream node) consumed s_mid /\
        parse s_mid net = (Raise x, stream node') /\
        Forall (fun e => ~ requested e) consumed)).
Proof.
  cbv zeta.
  assert (Hnot : forall l : list NetworkEnvelope,
             Forall (fun e' => dict_mem (command_to_class classes) (command e') = false) l ->
             Forall (fun e => ~ In (command e) (map cls_command classes)) l).
  { intros l Hl. eapply Forall_impl; [|exact Hl]. cbv beta. intros e He Hin.
    apply dict_mem_In in Hin. congruence. }
  unfold wait_for.
  destruct (wait_loop _ _ node) as [[r0 n1]|] eqn:E.
  - apply wait_loop_spec in E.
    destruct E as (consumed & s_mid & Hc & Hsent & Hnet & Hr).
    destruct r0 as [e|x].
    + destruct Hr as (pre & -> & Hpre & He & Hst). subst s_mid.
      destruct (dict_mem_get _ _ He) as [cls Hget]. rewrite Hget.
      destruct (dict_get_Some _ _ _ Hget) as [Hin Hcmd].
      exists (cls_parse cls (stream_of e)
                (if define_network cls then Some (node_network node) else None)),
             n1, (pre ++ [e]).
      split; [rewrite Hnet; destruct (define_network cls); reflexivity|].
      split; [exact Hsent|]. left. exists pre, e, cls.
      repeat split; try assumption.
      * apply Hnot, Hpre.
      * apply dict_mem_In, He.
    + destruct Hr as [Hall Hparse].
      exists (Raise x), n1, consumed. split; [reflexivity|].
      split; [exact Hsent|]. right. exists x, s_mid.
      repeat split; try assumption. apply Hnot, Hall.
  - exfalso. apply (wait_loop_fuel _ _ node) in E; [exact E | lia].
Qed.

(** Dispatch transparency: a session waiting for a VerAck that first
    receives a Ping sends one Pong with the nonce of the Ping, keeps
    waiting, and returns the VerAck. *)
Lemma wait_for_verack_after_ping :
  let nonce := fromhex "0102030405060708" in
  wait_for [VerAckMessage_class]
    (fresh_node mainnet (wire (b_ "ping") nonce mainnet ++ verack_frame)) =
  Some (Ok VerAck,
        {| node_network := mainnet; logging := false; stream := [];
           sent := [wire (b_ "pong") nonce mainnet]; printed := [] |}).
Proof. vm_compute. reflexivity. Qed.

(** A session waiting for a Pong raises when the pong arrives. *)
Lemma wait_for_pong_raises :
  let nonce := fromhex "0102030405060708" in
  wait_for [PongMessage_class] (fresh_node mainnet (wire (b_ "pong") nonce mainnet)) =
  Some (Raise (TypeError "PongMessage.parse() missing 1 required positional argument: 's'"),
        fresh_node mainnet []).
Proof. vm_compute. reflexivity. Qed.

(** ** is_tx_accepted *)

(** C8, on the code. When the request has been sent and the wait returns a
    transaction, [is_tx_accepted] returns [True] if the identifiers are
    equal; if they differ the body ends without a [return] and the call
    yields [None], which is not [False]. *)
Theorem is_tx_accepted_outcome (T : TxInterface) (tx_obj got_tx : Tx T)
    (node n1 n2 : SimpleNode) :
  send (GetData (add_data TX_DATA_TYPE (Tx_hash T tx_obj) GetDataMessage_init)) node
    = (Ok tt, n1) ->
  wait_for [Tx_class T] n1 = Some (Ok got_tx, n2) ->
  (Tx_id T got_tx = Tx_id T tx_obj ->
     is_tx_accepted T tx_obj node = Some (Ok PyTrue, n2)) /\
  (Tx_id T got_tx <> Tx_id T tx_obj ->
     is_tx_accepted T tx_obj node = Some (Ok PyNone, n2) /\ PyNone <> PyFalse).
Proof.
  intros Hs Hw. unfold is_tx_accepted. rewrite Hs, Hw. split; intros H.
  - apply String.eqb_eq in H. rewrite H. reflexivity.
  - apply String.eqb_neq in H. rewrite H. split; [reflexivity | discriminate].
Qed.

(** The peer answers the request for the transaction 01 with the
    transaction 02. *)
Lemma is_tx_accepted_outcome_witness :
  let node := fresh_node mainnet (wire (b_ "tx") [x02] mainnet) in
  exists n2,
    Tx_id RawTx [x02] <> Tx_id RawTx [x01] /\
    is_tx_accepted RawTx [x01] node = Some (Ok PyNone, n2) /\
    stream n2 = [] /\
    length (sent n2) = 1%nat.
Proof.
  cbv zeta.
  destruct (send (GetData (add_data TX_DATA_TYPE (Tx_hash RawTx [x01])
                             GetDataMessage_init))
              (fresh_node mainnet (wire (b_ "tx") [x02] mainnet)))
    as [r n1] eqn:Hs.
  destruct (wait_for [Tx_class RawTx] n1) as [[r2 n2]|] eqn:Hw;
    [|vm_compute in Hs; apply pair_inv in Hs; destruct Hs as [_ <-];
      vm_compute in Hw; discriminate Hw].
  assert (Hr : r = Ok tt)
    by (vm_compute in Hs; apply pair_inv in Hs; destruct Hs as [<- _]; reflexivity).
  subst r.
  assert (Hr2 : r2 = Ok [x02] /\ stream n2 = [] /\ length (sent n2) = 1%nat).
  { vm_compute in Hs. apply pair_inv in Hs. destruct Hs as [_ <-].
    vm_compute in Hw. injection Hw as <- <-. repeat split. }
  destruct Hr2 as (-> & Hst & Hlen).
  assert (Hne : Tx_id RawTx [x02] <> Tx_id RawTx [x01])
    by (vm_compute; discriminate).
  exists n2. split; [exact Hne|]. split; [|split; assumption].
  exact (proj1 (proj2 (is_tx_accepted_outcome RawTx [x01] [x02] _ n1 n2 Hs Hw) Hne)).
Defined.

(** ** The checksum *)

(** [parse] returns an envelope only if the four bytes it read as the
    checksum are the first four bytes of the double hash of the payload. *)
Lemma parse_checks_checksum (s s' : bytes) (net : network) (e : NetworkEnvelope) :
  parse s net = (Ok e, s') ->
  firstn 4 (skipn 20 s) = firstn 4 (hash256 (payload e)).
Proof.
  intros H. destruct (parse_ok_inv _ _ _ _ H) as (_ & _ & Hc & _).
  rewrite Hc. unfold read. cbn [fst snd].
  change (Z.to_nat 4) with 4%nat. change (Z.to_nat 12) with 12%nat.
  rewrite !skipn_skipn. reflexivity.
Qed.

(** A frame whose payload has been replaced by another of the same length:
    [parse] raises the checksum error when the first four bytes of the two
    double hashes differ, and returns the altered payload when they agree. *)
Lemma parse_altered_payload (c p p' : bytes) (net : network) :
  (length c <= 12)%nat ->
  len p < 2 ^ 32 ->
  length p' = length p ->
  parse (MAGIC net ++ (c ++ zeros (12 - len c)) ++ le_split 4 (len p)
           ++ firstn 4 (hash256 p) ++ p') net =
  if bytes_eqb (firstn 4 (hash256 p')) (firstn 4 (hash256 p))
  then (Ok (NetworkEnvelope_init (strip (c ++ zeros (12 - len c))) p' net), [])
  else (Raise checksum_mismatch, []).
Proof.
  intros Hc Hp Hl. unfold parse.
  rewrite read_app by (rewrite MAGIC_length; reflexivity).
  rewrite MAGIC_not_empty, bytes_eqb_refl. cbn [negb].
  rewrite read_app by (rewrite length_app, zeros_length; unfold len; lia).
  rewrite read_app by (rewrite length_le_split; reflexivity).
  rewrite read_app by (rewrite checksum_length; reflexivity).
  rewrite little_endian_round_trip by (unfold len in *; cbn; lia).
  rewrite <- (app_nil_r p') at 1.
  rewrite read_app by (unfold len; lia).
  destruct (bytes_eqb _ _); reflexivity.
Qed.

Lemma flip_bit_length (l : bytes) : forall i, length (flip_bit i l) = length l.
Proof.
  induction l as [|b t IH]; intros i; [reflexivity|]. cbn [flip_bit].
  destruct (i <? 8)%nat; cbn [length]; [reflexivity|]. rewrite IH. reflexivity.
Qed.

(** Flipping one bit of the payload of a serialized frame: [parse] raises
    the checksum error unless the flipped payload has the same first four
    bytes of double hash as the original. *)
Lemma parse_flipped_payload (c p : bytes) (net : network) (i : nat) :
  (length c <= 12)%nat ->
  len p < 2 ^ 32 ->
  firstn 4 (hash256 (flip_bit i p)) <> firstn 4 (hash256 p) ->
  serialize (NetworkEnvelope_init c p net) = Ok (wire c p net) /\
  parse (firstn 24 (wire c p net) ++ flip_bit i (skipn 24 (wire c p net))) net =
    (Raise checksum_mismatch, []).
Proof.
  intros Hc Hp Hne. split; [apply serialize_wire, Hp|].
  assert (Hw : wire c p net =
               (MAGIC net ++ (c ++ zeros (12 - len c)) ++ le_split 4 (len p)
                  ++ firstn 4 (hash256 p)) ++ p)
    by (unfold wire; rewrite <- !app_assoc; reflexivity).
  assert (H24 : length (MAGIC net ++ (c ++ zeros (12 - len c)) ++ le_split 4 (len p)
                          ++ firstn 4 (hash256 p)) = 24%nat).
  { rewrite !length_app, MAGIC_length, zeros_length, length_le_split,
      checksum_length. unfold len. lia. }
  rewrite Hw, firstn_app_exact, skipn_app_exact by exact H24.
  replace ((MAGIC net ++ (c ++ zeros (12 - len c)) ++ le_split 4 (len p)
              ++ firstn 4 (hash256 p)) ++ flip_bit i p)
    with (MAGIC net ++ (c ++ zeros (12 - len c)) ++ le_split 4 (len p)
              ++ firstn 4 (hash256 p) ++ flip_bit i p)
    by (rewrite <- !app_assoc; reflexivity).
  rewrite parse_altered_payload by (try assumption; apply flip_bit_length).
  rewrite bytes_eqb_neq by exact Hne. reflexivity.
Qed.

(** * Further properties of the module *)

(** [HeadersMessageTest.test_parse], on the stand-in block type: two headers
    are read, the stream is used up, and the two form a valid chain. *)
Lemma test_headers_parse :
  match HeadersMessage_parse RawBlocks headers_payload with
  | (Ok m, []) => length (headers m) = 2%nat /\ is_valid m = true
  | _ => False
  end.
Proof. vm_compute. split; reflexivity. Qed.

(** ** What [strip] leaves *)

Lemma lstrip_decomp (l : bytes) :
  exists k, l = repeat x00 k ++ lstrip l /\ hd x01 (lstrip l) <> x00.
Proof.
  induction l as [|b t IH].
  - exists 0%nat. split; [reflexivity | cbn; congruence].
  - destruct (Byte.byte_eq_dec b x00) as [->|Hb].
    + destruct IH as (k & Hk & Hh). exists (S k). cbn [lstrip repeat app].
      split; [f_equal; exact Hk | exact Hh].
    + exists 0%nat. rewrite lstrip_hd by exact Hb. split; [reflexivity | exact Hb].
Qed.

Lemma rstrip_decomp (l : bytes) :
  exists k, l = rstrip l ++ repeat x00 k /\ last (rstrip l) x01 <> x00.
Proof.
  destruct (lstrip_decomp (rev l)) as (k & Hk & Hh). exists k. unfold rstrip.
  split.
  - rewrite <- (rev_involutive l) at 1. rewrite Hk at 1.
    rewrite rev_app_distr, rev_repeat. reflexivity.
  - rewrite <- hd_rev, rev_involutive. exact Hh.
Qed.

Lemma strip_decomp (l : bytes) :
  exists j k,
    l = repeat x00 j ++ strip l ++ repeat x00 k /\ no_nul_ends (strip l).
Proof.
  destruct (lstrip_decomp l) as (j & Hj & Hh).
  destruct (rstrip_decomp (lstrip l)) as (k & Hk & Hl).
  exists j, k. unfold strip. split.
  - rewrite <- Hk. exact Hj.
  - split; [|exact Hl].
    destruct (rstrip (lstrip l)) as [|a t] eqn:E; [cbn; congruence|].
    rewrite Hk in Hh. exact Hh.
Qed.

Lemma strip_sandwich (c : bytes) (j k : nat) :
  no_nul_ends c -> strip (repeat x00 j ++ c ++ repeat x00 k) = c.
Proof.
  intros H. unfold strip. rewrite lstrip_repeat. apply (strip_padded c k H).
Qed.

Lemma strip_app_zeros (l : bytes) (k : nat) : strip (l ++ repeat x00 k) = strip l.
Proof.
  destruct (strip_decomp l) as (j & k' & Hl & Hn).
  remember (strip l) as c eqn:Hc. rewrite Hl.
  rewrite <- !app_assoc, <- repeat_app. apply strip_sandwich, Hn.
Qed.

Lemma strip_length (l : bytes) : (length (strip l) <= length l)%nat.
Proof.
  destruct (strip_decomp l) as (j & k & Hl & _).
  rewrite Hl at 2. rewrite !length_app. lia.
Qed.

(** ** More on the envelope *)

(** X1. A frame in the wire layout, whatever follows it on the stream and
    whatever zero bytes its command of at most 12 bytes holds: [parse]
    returns the envelope whose command is the command stripped of the zero
    bytes at both of its ends, with the payload unchanged, and leaves on the
    stream exactly what follows the frame. *)
Theorem parse_wire_strips (c p rest : bytes) (net : network) :
  (length c <= 12)%nat ->
  len p < 2 ^ 32 ->
  parse (wire c p net ++ rest) net =
    (Ok (NetworkEnvelope_init (strip c) p net), rest).
Proof.
  intros Hc Hp. rewrite parse_wire by assumption. unfold zeros.
  rewrite strip_app_zeros. reflexivity.
Qed.

Lemma parse_wire_strips_witness :
  parse (wire (x00 :: b_ "tx") [x01] mainnet ++ verack_frame) mainnet =
    (Ok (NetworkEnvelope_init (b_ "tx") [x01] mainnet), verack_frame).
Proof.
  apply (parse_wire_strips (x00 :: b_ "tx") [x01] verack_frame mainnet);
    [cbn; lia | reflexivity].
Defined.

(** X2. Whenever [parse] returns an envelope, the stream began with the
    configured magic, a full 12-byte command field, a full 4-byte length
    field and the 4-byte checksum of the returned payload, followed by the
    payload and by the bytes left on the stream; the command is the field
    stripped; and the payload is as long as the length field says, or
    shorter when the stream ended first, in which case nothing is left. *)
Theorem parse_ok_shape (s s' : bytes) (net : network) (e : NetworkEnvelope) :
  parse s net = (Ok e, s') ->
  exists field l,
    length field = 12%nat /\
    length l = 4%nat /\
    command e = strip field /\
    magic e = MAGIC net /\
    len (payload e) <= little_endian_to_int l /\
    (len (payload e) < little_endian_to_int l -> s' = []) /\
    s = MAGIC net ++ field ++ l ++ firstn 4 (hash256 (payload e)) ++ payload e ++ s'.
Proof.
  unfold parse. cbv beta iota zeta delta [read].
  change (Z.to_nat 4) with 4%nat. change (Z.to_nat 12) with 12%nat.
  destruct (bytes_eqb (firstn 4 s) []) eqn:E1; [discriminate|].
  destruct (bytes_eqb (firstn 4 s) (MAGIC net)) eqn:E2;
    cbn [negb]; [|discriminate].
  match goal with
  | |- context [bytes_eqb ?a ?b] => destruct (bytes_eqb a b) eqn:E3
  end; cbn [negb]; [|discriminate].
  intros H. apply pair_inv in H. destruct H as [He Hs]. apply Ok_inv in He.
  apply bytes_eqb_eq in E2, E3.
  set (s1 := skipn 4 s) in *.
  set (field := firstn 12 s1) in *. set (s2 := skipn 12 s1) in *.
  set (l := firstn 4 s2) in *. set (s3 := skipn 4 s2) in *.
  set (chk := firstn 4 s3) in *. set (s4 := skipn 4 s3) in *.
  set (n := Z.to_nat (little_endian_to_int l)) in *.
  assert (Hchk : length chk = 4%nat) by (rewrite <- E3; apply checksum_length).
  assert (H3 : (4 <= length s3)%nat)
    by (subst chk; rewrite length_firstn in Hchk; lia).
  assert (H2 : (8 <= length s2)%nat)
    by (subst s3; rewrite length_skipn in H3; lia).
  assert (H1 : (20 <= length s1)%nat)
    by (subst s2; rewrite length_skipn in H2; lia).
  assert (Hl0 : 0 <= little_endian_to_int l)
    by (pose proof (le_combine_bound l); unfold little_endian_to_int; lia).
  exists field, l. subst e s'. cbn [command payload magic NetworkEnvelope_init].
  split; [subst field; rewrite length_firstn; lia|].
  split; [subst l; rewrite length_firstn; lia|].
  split; [reflexivity|]. split; [reflexivity|]. split; [|split].
  - pose proof (firstn_le_length n s4). unfold len. lia.
  - intros Hlt. apply skipn_all2. unfold len in Hlt.
    rewrite length_firstn in Hlt. lia.
  - rewrite E3, (firstn_skipn n s4). subst chk s4.
    rewrite (firstn_skipn 4 s3). subst l s3. rewrite (firstn_skipn 4 s2).
    subst field s2. rewrite (firstn_skipn 12 s1). subst s1.
    rewrite <- E2. symmetry. apply firstn_skipn.
Qed.


Lemma parse_ok_shape_witness :
  exists field l,
    length field = 12%nat /\ length l = 4%nat /\
    b_ "verack" = strip field /\
    verack_frame = MAGIC mainnet ++ field ++ l ++ firstn 4 (hash256 []) ++ [] ++ [].
Proof.
  destruct (parse_ok_shape verack_frame [] mainnet
              (NetworkEnvelope_init (b_ "verack") [] mainnet))
    as (field & l & Hf & Hl & Hc & _ & _ & _ & Hs).
  - vm_compute. reflexivity.
  - exists field, l. repeat split; assumption.
Defined.

(** X3. At the end of the stream the length field is only an upper bound:
    a frame that declares [n] bytes of payload but ends after a shorter
    payload [p], with the checksum of [p], is accepted with payload [p];
    serializing the envelope returned gives a frame that differs from the
    one parsed, its length field being the length of [p]. *)
Theorem parse_short_payload (c p : bytes) (n : Z) (net : network) :
  (length c <= 12)%nat ->
  len p < n ->
  n < 2 ^ 32 ->
  let f := MAGIC net ++ (c ++ zeros (12 - len c)) ++ le_split 4 n
             ++ firstn 4 (hash256 p) ++ p in
  let e := NetworkEnvelope_init (strip c) p net in
  parse f net = (Ok e, []) /\
  serialize e = Ok (wire (strip c) p net) /\
  wire (strip c) p net <> f.
Proof.
  intros Hc Hp Hn. cbv zeta. split; [|split].
  - unfold parse.
    rewrite read_app by (rewrite MAGIC_length; reflexivity).
    rewrite MAGIC_not_empty, bytes_eqb_refl. cbn [negb].
    rewrite read_app by (rewrite length_app, zeros_length; unfold len; lia).
    rewrite read_app by (rewrite length_le_split; reflexivity).
    rewrite read_app by (rewrite checksum_length; reflexivity).
    rewrite little_endian_round_trip by (unfold len in *; cbn; lia).
    unfold read.
    rewrite (@firstn_all2 _ (Z.to_nat n) p), (@skipn_all2 _ (Z.to_nat n) p)
      by (unfold len in *; lia).
    rewrite bytes_eqb_refl. cbn [negb]. unfold zeros.
    rewrite strip_app_zeros. reflexivity.
  - apply serialize_wire. lia.
  - intros H. apply (f_equal (fun x => le_combine (firstn 4 (skipn 16 x)))) in H.
    cbv beta in H. unfold wire in H.
    assert (H16 : forall (a b : bytes) (x : bytes),
               length b = 12%nat ->
               skipn 16 (MAGIC net ++ b ++ x) = x).
    { intros a b x Hb. rewrite app_assoc. apply skipn_app_exact.
      rewrite length_app, MAGIC_length, Hb. reflexivity. }
    pose proof (strip_length c) as Hsl.
    rewrite (H16 [] (strip c ++ zeros (12 - len (strip c)))) in H
      by (rewrite length_app, zeros_length; unfold len; lia).
    rewrite (H16 [] (c ++ zeros (12 - len c))) in H
      by (rewrite length_app, zeros_length; unfold len; lia).
    rewrite !firstn_app_exact in H by apply length_le_split.
    rewrite !le_combine_split in H.
    rewrite !Z.mod_small in H by (unfold len in *; cbn; lia).
    lia.
Qed.

(** A header that declares five bytes of payload, with the checksum of the
    empty payload and nothing after it. *)
Lemma parse_short_payload_witness :
  parse (fromhex "f9beb4d9" ++ fromhex "76657261636b000000000000"
           ++ fromhex "05000000" ++ fromhex "5df6e0e2") mainnet =
    (Ok (NetworkEnvelope_init (b_ "verack") [] mainnet), []).
Proof.
  apply (proj1 (parse_short_payload (b_ "verack") [] 5 mainnet
                  ltac:(cbn; lia) eq_refl eq_refl)).
Defined.

Lemma MAGIC_inj (net net' : network) : MAGIC net = MAGIC net' -> net = net'.
Proof. destruct net, net'; intros H; try reflexivity; discriminate H. Qed.

(** X4. A frame built for one network and read by a session configured for
    another: [parse] raises the magic error naming the magic read and the
    magic expected, and the stream is left right after the four magic
    bytes, at the command field. *)
Theorem parse_other_network (c p rest : bytes) (net net' : network) :
  net <> net' ->
  parse (wire c p net ++ rest) net' =
    (Raise (magic_not_right (MAGIC net) (MAGIC net')),
     (c ++ zeros (12 - len c)) ++ le_split 4 (len p) ++ firstn 4 (hash256 p)
       ++ p ++ rest).
Proof.
  intros Hne. unfold parse, wire. rewrite <- !app_assoc.
  rewrite read_app by (rewrite MAGIC_length; reflexivity).
  rewrite MAGIC_not_empty.
  rewrite bytes_eqb_neq by (intros H; apply Hne, MAGIC_inj, H).
  reflexivity.
Qed.

Lemma parse_other_network_witness :
  parse (wire (b_ "verack") [] signet) mainnet =
    (Raise (RuntimeError "magic is not right 0a03cf40 vs f9beb4d9"),
     skipn 4 verack_frame).
Proof.
  rewrite <- (app_nil_r (wire (b_ "verack") [] signet)).
  rewrite (parse_other_network (b_ "verack") [] [] signet mainnet)
    by discriminate.
  vm_compute. reflexivity.
Defined.

(** X5. Frames written one after the other are read one after the other:
    on the concatenation of the frames of valid envelopes, followed by any
    bytes, successive calls of [parse] return the envelopes in order and
    leave those bytes. *)
Theorem parse_frames_in_order (net : network) (es : list NetworkEnvelope)
    (rest : bytes) :
  Forall (valid_envelope net) es ->
  consumes net (frames net es ++ rest) es rest.
Proof.
  induction es as [|e es IH]; intros H; [apply consumes_nil|].
  inversion H as [|? ? He Hes]; subst.
  destruct e as [c p m]. destruct He as (Hm & Hc & Hn & Hp).
  cbn [magic command payload] in Hm, Hc, Hn, Hp. subst m.
  unfold frames. cbn [flat_map command payload]. rewrite <- app_assoc.
  eapply consumes_cons; [|apply IH, Hes].
  rewrite parse_wire by assumption. unfold zeros.
  rewrite strip_padded by assumption. reflexivity.
Qed.

Lemma parse_frames_in_order_witness :
  let ping := NetworkEnvelope_init (b_ "ping") (fromhex "0102030405060708") mainnet in
  let verack := NetworkEnvelope_init (b_ "verack") [] mainnet in
  consumes mainnet (frames mainnet [ping; verack] ++ [x00]) [ping; verack] [x00].
Proof.
  cbv zeta. apply parse_frames_in_order.
  repeat constructor; try (vm_compute; congruence); cbn; lia.
Defined.

Lemma parse_ok_command (s s' : bytes) (net : network) (e : NetworkEnvelope) :
  parse s net = (Ok e, s') ->
  exists field, (length field <= 12)%nat /\ command e = strip field.
Proof.
  unfold parse. cbv beta iota zeta delta [read].
  destruct (bytes_eqb (firstn (Z.to_nat 4) s) []); [discriminate|].
  destruct (bytes_eqb (firstn (Z.to_nat 4) s) (MAGIC net));
    cbn [negb]; [|discriminate].
  match goal with
  | |- context [bytes_eqb ?a ?b] => destruct (bytes_eqb a b)
  end; cbn [negb]; [|discriminate].
  intros H. apply pair_inv in H. destruct H as [He _]. apply Ok_inv in He.
  subst e. eexists. split; [|reflexivity]. apply firstn_le_length.
Qed.

(** X6. Every envelope that [parse] returns is a valid one -- the configured
    magic, a command of at most 12 bytes with no zero byte at either end, a
    payload shorter than 2^32 bytes -- so it serializes, and parsing the
    serialization returns it again. *)
Theorem parsed_envelope_round_trips (s s' : bytes) (net : network)
    (e : NetworkEnvelope) :
  parse s net = (Ok e, s') ->
  valid_envelope net e /\
  serialize e = Ok (wire (command e) (payload e) net) /\
  parse (wire (command e) (payload e) net) net = (Ok e, []).
Proof.
  intros H.
  destruct (parse_ok_inv _ _ _ _ H) as (Hm & Hp & _ & _).
  destruct (parse_ok_command _ _ _ _ H) as (field & Hf & Hc).
  destruct (strip_decomp field) as (_ & _ & _ & Hn).
  pose proof (strip_length field) as Hl.
  destruct e as [c p m]. cbn [command payload magic] in *. subst m c.
  assert (Hc : (length (strip field) <= 12)%nat) by lia.
  split; [|split].
  - unfold valid_envelope. cbn [command payload magic].
    split; [reflexivity | split; [exact Hc | split; [exact Hn | exact Hp]]].
  - apply (serialize_wire (strip field) p net Hp).
  - rewrite <- (app_nil_r (wire _ _ _)), parse_wire by assumption.
    unfold zeros. rewrite strip_padded by assumption. reflexivity.
Qed.

Lemma parsed_envelope_round_trips_witness :
  exists e,
    parse version_frame mainnet = (Ok e, []) /\
    valid_envelope mainnet e /\
    parse (wire (command e) (payload e) mainnet) mainnet = (Ok e, []).
Proof.
  exists (NetworkEnvelope_init (b_ "version") (skipn 24 version_frame) mainnet).
  assert (H : parse version_frame mainnet =
              (Ok (NetworkEnvelope_init (b_ "version") (skipn 24 version_frame)
                     mainnet), []))
    by (vm_compute; reflexivity).
  split; [exact H|].
  destruct (parsed_envelope_round_trips _ _ _ _ H) as (Hv & _ & Hp).
  split; assumption.
Defined.

(** ** More on the session *)

Lemma send_inv (m : message) (node node' : SimpleNode) (r : result unit) :
  send m node = (r, node') ->
  stream node' = stream node /\
  node_network node' = node_network node /\
  match r with
  | Ok _ =>
      exists p,
        message_serialize m = Ok p /\ len p < 2 ^ 32 /\
        sent node' = sent node ++ [wire (message_command m) p (node_network node)]
  | Raise x =>
      sent node' = sent node /\
      (message_serialize m = Raise x \/
       exists p, message_serialize m = Ok p /\ 2 ^ 32 <= len p /\ x = OverflowError)
  end.
Proof.
  unfold send. destruct (message_serialize m) as [p|x] eqn:Es.
  - destruct (Z.lt_ge_cases (len p) (2 ^ 32)) as [Hp|Hp].
    + rewrite serialize_wire by exact Hp. intros H. apply pair_inv in H.
      destruct H as [<- <-]. destruct (logging node); cbn;
        (split; [reflexivity|]); (split; [reflexivity|]);
        exists p; repeat split; assumption.
    + rewrite serialize_overflow by exact Hp. intros H. apply pair_inv in H.
      destruct H as [<- <-]. destruct (logging node); cbn;
        (split; [reflexivity|]); (split; [reflexivity|]);
        (split; [reflexivity|]); right; exists p; repeat split; assumption.
  - intros H. apply pair_inv in H. destruct H as [<- <-].
    repeat split. left. reflexivity.
Qed.

Lemma catalog_command (m : message) :
  catalog_message m ->
  (length (message_command m) <= 12)%nat /\ no_nul_ends (message_command m).
Proof.
  destruct m; cbn [catalog_message message_command]; intros H;
    try contradiction; (split; [cbn; lia | split; vm_compute; congruence]).
Qed.

(** X7. What [send] writes, the peer reads back: when [send] returns for a
    message of the catalog, it has handed to the socket exactly one byte
    string, and [parse] on the same network turns that byte string into the
    envelope with the command of the message and its serialization as
    payload, with nothing left over; the inbound stream is not touched. *)
Theorem send_then_parse (m : message) (node node' : SimpleNode) (u : unit) :
  catalog_message m ->
  send m node = (Ok u, node') ->
  exists p,
    message_serialize m = Ok p /\
    sent node' = sent node ++ [wire (message_command m) p (node_network node)] /\
    parse (wire (message_command m) p (node_network node)) (node_network node) =
      (Ok (NetworkEnvelope_init (message_command m) p (node_network node)), []) /\
    stream node' = stream node.
Proof.
  intros Hm Hs. destruct (catalog_command m Hm) as [Hc Hn].
  destruct (send_inv _ _ _ _ Hs) as (Hst & _ & p & Hp & Hlen & Hsent).
  exists p. split; [exact Hp|]. split; [exact Hsent|]. split; [|exact Hst].
  rewrite <- (app_nil_r (wire _ _ _)), parse_wire by assumption.
  unfold zeros. rewrite strip_padded by assumption. reflexivity.
Qed.

Lemma send_then_parse_witness :
  exists node',
    send (Ping (fromhex "0102030405060708")) (fresh_node testnet []) = (Ok tt, node') /\
    sent node' = [wire (b_ "ping") (fromhex "0102030405060708") testnet] /\
    parse (wire (b_ "ping") (fromhex "0102030405060708") testnet) testnet =
      (Ok (NetworkEnvelope_init (b_ "ping") (fromhex "0102030405060708") testnet), []).
Proof.
  destruct (send (Ping (fromhex "0102030405060708")) (fresh_node testnet []))
    as [[[]|x] node'] eqn:Hs; [|vm_compute in Hs; discriminate Hs].
  exists node'. split; [reflexivity|].
  destruct (send_then_parse (Ping (fromhex "0102030405060708")) _ _ _ I Hs)
    as (p & Hp & Hsent & Hparse & _).
  assert (p = fromhex "0102030405060708")
    by exact (eq_sym (Ok_inv (fromhex "0102030405060708") p Hp)).
  subst p.
  split; [exact Hsent | exact Hparse].
Defined.

(** X8. A failure of serialization is raised before the socket is used:
    when the message's own [serialize] raises, or when its serialization
    has 2^32 bytes or more, which makes the envelope's [serialize] raise
    [OverflowError], [send] raises that exception without having called
    [sendall]: nothing has been handed to the socket and the inbound stream
    is as it was. *)
Theorem send_serialization_failure (m : message) (node : SimpleNode) (x : exn) :
  message_serialize m = Raise x \/
  (exists p, message_serialize m = Ok p /\ 2 ^ 32 <= len p /\ x = OverflowError) ->
  exists node',
    send m node = (Raise x, node') /\
    sent node' = sent node /\
    stream node' = stream node.
Proof.
  intros [H|(p & H & Hp & ->)]; unfold send; rewrite H.
  - exists node. repeat split.
  - rewrite serialize_overflow by exact Hp.
    destruct (logging node); eexists; (split; [reflexivity|]); cbn;
      split; reflexivity.
Qed.

(** A GetHeaders message whose version does not fit 4 bytes. *)
Lemma send_serialization_failure_witness :
  let m := GetHeaders {| gh_version := 2 ^ 32; num_hashes := 1;
                         start_block := zeros 32; end_block := zeros 32 |} in
  exists node',
    send m (fresh_node mainnet verack_frame) = (Raise OverflowError, node') /\
    sent node' = [] /\ stream node' = verack_frame.
Proof.
  cbv zeta.
  apply (send_serialization_failure
           (GetHeaders {| gh_version := 2 ^ 32; num_hashes := 1;
                          start_block := zeros 32; end_block := zeros 32 |})
           (fresh_node mainnet verack_frame) OverflowError).
  left. reflexivity.
Defined.

Lemma node_read_ok (node : SimpleNode) (e : NetworkEnvelope) (s' : bytes) :
  parse (stream node) (node_network node) = (Ok e, s') ->
  exists n1,
    node_read node = (Ok e, n1) /\
    stream n1 = s' /\ sent n1 = sent node /\
    node_network n1 = node_network node.
Proof.
  intros H. unfold node_read. rewrite H.
  destruct (logging (set_stream s' node)); eexists; (split; [reflexivity|]);
    cbn; repeat split.
Qed.

Lemma node_read_raise (node : SimpleNode) (x : exn) (s' : bytes) :
  parse (stream node) (node_network node) = (Raise x, s') ->
  node_read node = (Raise x, set_stream s' node).
Proof. intros H. unfold node_read. rewrite H. reflexivity. Qed.

Lemma dict_get_mem {M : Type} (d : list (bytes * message_class M)) (k : bytes)
    (cls : message_class M) :
  dict_get d k = Some cls -> dict_mem d k = true.
Proof.
  unfold dict_get, dict_mem. destruct (find _ _) as [kv|] eqn:E; [|discriminate].
  intros _. apply find_some in E. destruct E as [Hin Heq].
  apply existsb_exists. exists kv. split; [apply in_rev, Hin | exact Heq].
Qed.

Lemma wait_loop_head {M : Type} (d : list (bytes * message_class M))
    (node : SimpleNode) (c p rest : bytes) (fuel : nat) :
  stream node = wire c p (node_network node) ++ rest ->
  (length c <= 12)%nat ->
  len p < 2 ^ 32 ->
  dict_mem d (strip c) = true ->
  exists n2,
    wait_loop (S fuel) d node =
      Some (Ok (NetworkEnvelope_init (strip c) p (node_network node)), n2) /\
    stream n2 = rest /\
    node_network n2 = node_network node /\
    sent n2 =
      sent node ++
      auto_replies (node_network node)
        (NetworkEnvelope_init (strip c) p (node_network node)).
Proof.
  intros Hs Hc Hp Hmem.
  assert (Hparse : parse (stream node) (node_network node) =
                   (Ok (NetworkEnvelope_init (strip c) p (node_network node)), rest)).
  { rewrite Hs, parse_wire by assumption. unfold zeros.
    rewrite strip_app_zeros. reflexivity. }
  destruct (node_read_ok _ _ _ Hparse) as (n1 & Hr & Hst1 & Hse1 & Hn1).
  destruct (auto_respond_ok
              (NetworkEnvelope_init (strip c) p (node_network node)) n1 Hp)
    as (n2 & Ha & Hse2 & Hst2 & Hn2).
  exists n2. cbn [wait_loop]. rewrite Hr, Ha.
  cbn [command NetworkEnvelope_init]. rewrite Hmem.
  split; [reflexivity|]. split; [congruence|]. split; [congruence|].
  rewrite Hse2, Hse1, Hn1. reflexivity.
Qed.

(** X9. A requested envelope at the head of the stream is returned at once:
    when the stream begins with a frame whose command, stripped, is the
    command of a requested class, [wait_for] returns what that class's
    [parse] makes of the payload, leaves on the stream what follows the
    frame, and has sent only the automatic reply, if any, to that one
    envelope. *)
Theorem wait_for_head_requested {M : Type} (classes : list (message_class M))
    (cls : message_class M) (node : SimpleNode) (c p rest : bytes) :
  stream node = wire c p (node_network node) ++ rest ->
  (length c <= 12)%nat ->
  len p < 2 ^ 32 ->
  dict_get (command_to_class classes) (strip c) = Some cls ->
  exists node',
    wait_for classes node =
      Some (cls_parse cls p
              (if define_network cls then Some (node_network node) else None),
            node') /\
    stream node' = rest /\
    sent node' =
      sent node ++
      auto_replies (node_network node)
        (NetworkEnvelope_init (strip c) p (node_network node)).
Proof.
  intros Hs Hc Hp Hget.
  destruct (wait_loop_head (command_to_class classes) node c p rest
              (length (stream node)) Hs Hc Hp (dict_get_mem _ _ _ Hget))
    as (n2 & Hloop & Hst & Hnet & Hse).
  exists n2. unfold wait_for. rewrite Hloop.
  cbn [command NetworkEnvelope_init]. rewrite Hget.
  cbn [stream_of payload NetworkEnvelope_init]. rewrite Hnet.
  split; [destruct (define_network cls); reflexivity|].
  split; [exact Hst | exact Hse].
Qed.

(** A ping waited for: the Pong goes out with the whole payload, the Ping
    returned holds its first eight bytes, and the verack that follows stays
    on the stream. *)
Lemma wait_for_head_requested_witness :
  let p := fromhex "0102030405060708090a" in
  exists node',
    wait_for [PingMessage_class]
      (fresh_node mainnet (wire (b_ "ping") p mainnet ++ verack_frame)) =
      Some (Ok (Ping (fromhex "0102030405060708")), node') /\
    stream node' = verack_frame /\
    sent node' = [wire (b_ "pong") p mainnet].
Proof.
  cbv zeta.
  destruct (wait_for_head_requested [PingMessage_class] PingMessage_class
              (fresh_node mainnet
                 (wire (b_ "ping") (fromhex "0102030405060708090a") mainnet
                    ++ verack_frame))
              (b_ "ping") (fromhex "0102030405060708090a") verack_frame)
    as (node' & Hw & Hst & Hse); try reflexivity; [cbn; lia|].
  exists node'. split; [exact Hw|]. split; [exact Hst | exact Hse].
Defined.

Lemma find_app_skip {A : Type} (f : A -> bool) (a b : list A) :
  (forall y, In y a -> f y = false) -> find f (a ++ b) = find f b.
Proof.
  induction a as [|x a IH]; intros H; [reflexivity|]. cbn [app find].
  rewrite (H x) by (left; reflexivity). apply IH. intros y Hy.
  apply H. right. exact Hy.
Qed.

(** X10. In the dictionary [wait_for] builds from the classes it is given,
    a command that several classes share maps to the last of them: the
    class found for a command is the class with that command that no later
    class with the same command follows. *)
Theorem command_to_class_last_wins {M : Type} (l1 l2 : list (message_class M))
    (cls : message_class M) :
  Forall (fun c => cls_command c <> cls_command cls) l2 ->
  dict_get (command_to_class (l1 ++ cls :: l2)) (cls_command cls) = Some cls.
Proof.
  intros H. unfold dict_get, command_to_class.
  rewrite map_app, rev_app_distr. cbn [map rev]. rewrite <- !app_assoc.
  rewrite find_app_skip.
  - cbn [app find fst]. rewrite bytes_eqb_refl. reflexivity.
  - intros [k c] Hin. apply in_rev, in_map_iff in Hin.
    destruct Hin as (c' & Hc' & Hin). apply pair_inv in Hc'.
    destruct Hc' as [<- <-]. cbn [fst]. apply bytes_eqb_neq.
    rewrite Forall_forall in H. intros Heq. apply (H c' Hin). congruence.
Qed.

Lemma command_to_class_last_wins_witness :
  let late := {| cls_command := b_ "ping"; define_network := false;
                 cls_parse := VerAckMessage_parse |} in
  dict_get (command_to_class ([PingMessage_class] ++ late :: [VerAckMessage_class]))
    (b_ "ping") = Some late.
Proof.
  cbv zeta.
  apply (command_to_class_last_wins [PingMessage_class] [VerAckMessage_class]
           {| cls_command := b_ "ping"; define_network := false;
              cls_parse := VerAckMessage_parse |}).
  repeat constructor. vm_compute. congruence.
Defined.

Lemma frames_length (net : network) (es : list NetworkEnvelope) :
  (length es <= length (frames net es))%nat.
Proof.
  induction es as [|e es IH]; [cbn; lia|].
  unfold frames in *. cbn [flat_map length]. rewrite length_app.
  pose proof (wire_length (command e) (payload e) net) as Hw.
  unfold len in Hw. lia.
Qed.

Lemma wait_loop_unrequested {M : Type} (d : list (bytes * message_class M))
    (es : list NetworkEnvelope) :
  forall (fuel : nat) (node : SimpleNode),
    Forall (valid_envelope (node_network node)) es ->
    Forall (fun e => dict_mem d (command e) = false) es ->
    stream node = frames (node_network node) es ->
    (length es < fuel)%nat ->
    exists node',
      wait_loop fuel d node = Some (Raise connection_reset, node') /\
      stream node' = [] /\
      sent node' = sent node ++ flat_map (auto_replies (node_network node)) es.
Proof.
  induction es as [|e es IH]; intros fuel node Hv Hd Hs Hf;
    (destruct fuel as [|fuel]; [cbn in Hf; lia|]); cbn [wait_loop].
  - exists (set_stream [] node). rewrite (node_read_raise node connection_reset [])
      by (rewrite Hs; reflexivity).
    cbn. rewrite app_nil_r. repeat split.
  - inversion Hv as [|? ? He Hes]; subst. inversion Hd as [|? ? Hde Hdes]; subst.
    destruct e as [c p m]. destruct He as (Hm & Hc & Hn & Hp).
    cbn [magic command payload] in Hm, Hc, Hn, Hp, Hde. subst m.
    assert (Hparse : parse (stream node) (node_network node) =
                     (Ok (NetworkEnvelope_init c p (node_network node)),
                      frames (node_network node) es)).
    { rewrite Hs. unfold frames at 1. cbn [flat_map command payload].
      rewrite parse_wire by assumption. unfold zeros.
      rewrite strip_padded by assumption. reflexivity. }
    destruct (node_read_ok _ _ _ Hparse) as (n1 & Hr & Hst1 & Hse1 & Hn1).
    destruct (auto_respond_ok
                (NetworkEnvelope_init c p (node_network node)) n1 Hp)
      as (n2 & Ha & Hse2 & Hst2 & Hn2).
    rewrite Hr, Ha. cbn [command NetworkEnvelope_init]. rewrite Hde.
    assert (Hnet : node_network n2 = node_network node) by congruence.
    destruct (IH fuel n2) as (node' & Hw & Hst' & Hse').
    + rewrite Hnet. exact Hes.
    + exact Hdes.
    + rewrite Hnet. congruence.
    + cbn [length] in Hf. lia.
    + exists node'. split; [exact Hw|]. split; [exact Hst'|].
      rewrite Hse', Hse2, Hse1, Hnet, Hn1. cbn [flat_map].
      rewrite <- app_assoc. reflexivity.
Qed.

(** X11. A stream that ends without a requested envelope: when the inbound
    stream is made of the frames of valid envelopes none of which has a
    requested command, [wait_for] reads them all, answers each [version]
    and each [ping] among them, and raises the connection-reset error at
    the end of the stream; it returns no message. *)
Theorem wait_for_nothing_requested {M : Type} (classes : list (message_class M))
    (node : SimpleNode) (es : list NetworkEnvelope) :
  Forall (valid_envelope (node_network node)) es ->
  Forall (fun e => ~ In (command e) (map cls_command classes)) es ->
  stream node = frames (node_network node) es ->
  exists node',
    wait_for classes node = Some (Raise connection_reset, node') /\
    stream node' = [] /\
    sent node' = sent node ++ flat_map (auto_replies (node_network node)) es.
Proof.
  intros Hv Hn Hs.
  destruct (wait_loop_unrequested (command_to_class classes) es
              (S (length (stream node))) node Hv) as (node' & Hw & Hst & Hse).
  - eapply Forall_impl; [|exact Hn]. cbv beta. intros e He.
    destruct (dict_mem (command_to_class classes) (command e)) eqn:E;
      [|reflexivity].
    exfalso. apply He, dict_mem_In, E.
  - exact Hs.
  - rewrite Hs. pose proof (frames_length (node_network node) es). lia.
  - exists node'. unfold wait_for. rewrite Hw. repeat split; assumption.
Qed.

Lemma wait_for_nothing_requested_witness :
  let ping := NetworkEnvelope_init (b_ "ping") (fromhex "0102030405060708") mainnet in
  let version := NetworkEnvelope_init (b_ "version") [] mainnet in
  exists node',
    wait_for [VerAckMessage_class]
      (fresh_node mainnet (frames mainnet [ping; version])) =
      Some (Raise connection_reset, node') /\
    stream node' = [] /\
    sent node' = [wire (b_ "pong") (fromhex "0102030405060708") mainnet;
                  wire (b_ "verack") [] mainnet].
Proof.
  cbv zeta.
  apply (wait_for_nothing_requested [VerAckMessage_class]
           (fresh_node mainnet _)
           [NetworkEnvelope_init (b_ "ping") (fromhex "0102030405060708") mainnet;
            NetworkEnvelope_init (b_ "version") [] mainnet]).
  - repeat constructor; try (vm_compute; congruence); cbn; lia.
  - apply Forall_cons; [vm_compute; intros [H|H]; [discriminate H | exact H]|].
    apply Forall_cons; [vm_compute; intros [H|H]; [discriminate H | exact H]|].
    apply Forall_nil.
  - reflexivity.
Defined.


(** ** is_tx_accepted: the request *)



(** ** The handshake *)

Lemma int_to_little_endian_out (n : Z) (w : nat) :
  ~ (0 <= n < 2 ^ (8 * Z.of_nat w)) ->
  int_to_little_endian n w = Raise OverflowError.
Proof.
  intros H. unfold int_to_little_endian.
  destruct (Z.leb_spec 0 n); destruct (Z.ltb_spec n (2 ^ (8 * Z.of_nat w)));
    try reflexivity. exfalso. apply H. split; assumption.
Qed.

Lemma int_to_little_endian_cases (n : Z) (w : nat) :
  (0 <= n < 2 ^ (8 * Z.of_nat w) /\ int_to_little_endian n w = Ok (le_split w n)) \/
  (~ (0 <= n < 2 ^ (8 * Z.of_nat w)) /\ int_to_little_endian n w = Raise OverflowError).
Proof.
  destruct (Z.le_gt_cases 0 n) as [H0|H0];
    [destruct (Z.lt_ge_cases n (2 ^ (8 * Z.of_nat w))) as [H1|H1]|].
  - left. split; [lia | apply int_to_little_endian_ok; lia].
  - right. split; [lia | apply int_to_little_endian_out; lia].
  - right. split; [lia | apply int_to_little_endian_out; lia].
Qed.






(** X14. With a nonce draw or a clock reading that does not fit 8 bytes,
    [handshake] raises [OverflowError] before anything is sent or read: the
    session is left as it was. *)
Theorem handshake_overflow (env : ambient) (node : SimpleNode) :
  ~ (0 <= draw env < 2 ^ 64) \/ ~ (0 <= now env < 2 ^ 64) ->
  handshake env node = Some (Raise OverflowError, node).
Proof.
  intros H. unfold handshake, VersionMessage_default, VersionMessage_init.
  destruct (Z.le_gt_cases 0 (draw env)) as [Hd0|Hd0];
    [destruct (Z.lt_ge_cases (draw env) (2 ^ 64)) as [Hd1|Hd1]|].
  - rewrite (int_to_little_endian_ok (draw env) 8) by (cbn; lia).
    cbn [bind]. unfold send, message_serialize, VersionMessage_serialize.
    cbn [version services timestamp receiver_services receiver_ip receiver_port
         sender_services sender_ip sender_port nonce user_agent latest_block relay].
    rewrite (int_to_little_endian_out (now env) 8)
      by (destruct H as [H|H]; [exfalso; apply H; lia | exact H]).
    reflexivity.
  - rewrite (int_to_little_endian_out (draw env) 8) by (cbn; lia). reflexivity.
  - rewrite (int_to_little_endian_out (draw env) 8) by (cbn; lia). reflexivity.
Qed.

(** The draw 2^64, which [randint(0, 2**64)] can make. *)
Lemma handshake_overflow_witness :
  randint 0 (2 ^ 64) (2 ^ 64) /\
  handshake {| now := 1700000000; draw := 2 ^ 64 |} (fresh_node mainnet verack_frame)
    = Some (Raise OverflowError, fresh_node mainnet verack_frame).
Proof.
  split; [unfold randint; lia|].
  apply handshake_overflow. left. cbn. lia.
Defined.

(** ** Serialization of the other messages *)

Lemma encode_varint_cases (i : Z) :
  (0 <= i < 2 ^ 64 /\
   exists v, encode_varint i = Ok v /\ (1 <= length v <= 9)%nat) \/
  (~ (0 <= i < 2 ^ 64) /\ encode_varint i = Raise ValueError).
Proof.
  unfold encode_varint.
  destruct (Z.ltb_spec i 0) as [H0|H0]; [right; split; [lia | reflexivity]|].
  destruct (Z.ltb_spec i 0xfd) as [H1|H1].
  { left. split; [lia|]. eexists. split; [reflexivity | cbn; lia]. }
  destruct (Z.ltb_spec i 0x10000) as [H2|H2].
  { left. split; [lia|]. rewrite int_to_little_endian_ok by (cbn; lia).
    eexists. split; [reflexivity|]. cbn [length]. rewrite length_le_split. lia. }
  destruct (Z.ltb_spec i 0x100000000) as [H3|H3].
  { left. split; [lia|]. rewrite int_to_little_endian_ok by (cbn; lia).
    eexists. split; [reflexivity|]. cbn [length]. rewrite length_le_split. lia. }
  destruct (Z.ltb_spec i 0x10000000000000000) as [H4|H4].
  { left. split; [lia|]. rewrite int_to_little_endian_ok by (cbn; lia).
    eexists. split; [reflexivity|]. cbn [length]. rewrite length_le_split. lia. }
  right. split; [lia | reflexivity].
Qed.

Ltac field_fits n w :=
  let H := fresh "Hfit" in
  destruct (int_to_little_endian_cases n w) as [[H ->]|[H ->]]; cbn [bind];
  [ cbn in H
  | split;
    [ split;
      [ intros [? Hb]; discriminate Hb
      | intros Hf; exfalso; apply H; unfold version_fits in Hf; cbn; lia ]
    | intros ? Hb; discriminate Hb ] ].

(** X15. [VersionMessage.serialize] returns exactly when every numeric field
    fits the width it is written on (4 bytes for the version and the latest
    block, 8 for the services and the timestamp, 2 for the ports) and the
    user agent is shorter than 2^64 bytes; the addresses and the nonce are
    copied as they are, whatever their length, so the result has 69 bytes
    plus the lengths of the two addresses, of the nonce, of the varint and
    of the user agent. *)
Theorem version_serialize_fits (m : VersionMessage) :
  ((exists b, VersionMessage_serialize m = Ok b) <-> version_fits m) /\
  (forall b, VersionMessage_serialize m = Ok b ->
     exists v,
       encode_varint (len (user_agent m)) = Ok v /\
       len b = 69 + len (receiver_ip m) + len (sender_ip m) + len (nonce m)
               + len v + len (user_agent m)).
Proof.
  unfold VersionMessage_serialize.
  field_fits (version m) 4%nat.
  field_fits (services m) 8%nat.
  field_fits (timestamp m) 8%nat.
  field_fits (receiver_services m) 8%nat.
  field_fits (receiver_port m) 2%nat.
  field_fits (sender_services m) 8%nat.
  field_fits (sender_port m) 2%nat.
  destruct (encode_varint_cases (len (user_agent m)))
    as [[Hua (v & -> & Hv)]|[Hua ->]]; cbn [bind].
  - field_fits (latest_block m) 4%nat.
    split; [split|].
    + intros _. unfold version_fits. lia.
    + intros _. eexists. reflexivity.
    + intros b Hb. apply Ok_inv in Hb. subst b. exists v.
      split; [reflexivity|]. unfold len.
      rewrite !length_app, !length_le_split, !zeros_length.
      destruct (relay m); cbn [length]; lia.
  - split; [split|].
    + intros [? Hb]. discriminate Hb.
    + intros Hf. exfalso. apply Hua. unfold version_fits in Hf.
      unfold len in *. lia.
    + intros ? Hb. discriminate Hb.
Qed.

(** [VersionMessageTest.test_serialize]: 113 bytes. *)
Lemma version_serialize_fits_witness :
  exists v b,
    VersionMessage_default {| now := 0; draw := 0 |} (Some 0) (Some (zeros 8)) = Ok v /\
    version_fits v /\
    VersionMessage_serialize v = Ok b /\
    len b = 113.
Proof.
  destruct (VersionMessage_default {| now := 0; draw := 0 |} (Some 0) (Some (zeros 8)))
    as [v|x] eqn:Ev; [|vm_compute in Ev; discriminate Ev].
  destruct (VersionMessage_serialize v) as [b|x] eqn:Eb;
    [|vm_compute in Ev; apply Ok_inv in Ev; subst v; vm_compute in Eb;
      discriminate Eb].
  exists v, b. split; [reflexivity|].
  destruct (version_serialize_fits v) as [Hiff Hlen].
  split; [apply Hiff; exists b; exact Eb|]. split; [exact Eb|].
  destruct (Hlen b Eb) as (w & Hw & Hl). rewrite Hl.
  vm_compute in Ev. apply Ok_inv in Ev. subst v. vm_compute in Hw.
  apply Ok_inv in Hw. subst w. reflexivity.
Defined.

Lemma GetDataMessage_items_ok (items : list (Z * bytes)) :
  forall r0 : bytes,
    Forall (fun it => 0 <= fst it < 2 ^ 32) items ->
    GetDataMessage_items items r0 = Ok (r0 ++ flat_map getdata_item items).
Proof.
  induction items as [|[t i] items IH]; intros r0 H; cbn [GetDataMessage_items flat_map].
  - rewrite app_nil_r. reflexivity.
  - inversion H as [|? ? Ht Hrest]; subst. cbn [fst] in Ht.
    rewrite int_to_little_endian_ok by (cbn; lia). cbn [bind].
    rewrite IH by exact Hrest. unfold getdata_item at 2. cbn [fst snd].
    rewrite <- !app_assoc. reflexivity.
Qed.

Lemma GetDataMessage_items_inv (items : list (Z * bytes)) :
  forall r0 b : bytes,
    GetDataMessage_items items r0 = Ok b ->
    Forall (fun it => 0 <= fst it < 2 ^ 32) items.
Proof.
  induction items as [|[t i] items IH]; intros r0 b H; [constructor|].
  cbn [GetDataMessage_items] in H.
  destruct (int_to_little_endian_cases t 4) as [[Ht Hi]|[Ht Hi]];
    rewrite Hi in H; cbn [bind] in H; [|discriminate H].
  constructor; [cbn in Ht |- *; lia | eapply IH; exact H].
Qed.

Lemma getdata_items_length (items : list (Z * bytes)) :
  Forall (fun it => length (snd it) = 32%nat) items ->
  len (flat_map getdata_item items) = 36 * len_items items.
Proof.
  unfold len, len_items. induction items as [|it items IH]; intros H; [reflexivity|].
  inversion H as [|? ? Hi Hrest]; subst. cbn [flat_map length].
  rewrite length_app. unfold getdata_item at 1.
  rewrite length_app, length_le_split, length_rev, Hi.
  specialize (IH Hrest). lia.
Qed.

(** X16. For fewer than 2^64 entries, [GetDataMessage.serialize] returns
    exactly when every type code fits 4 bytes, and what it returns is the
    varint of the number of entries followed, entry by entry in the order
    they were added, by the type code on 4 little-endian bytes and the
    identifier in reverse byte order: 36 bytes an entry when the identifiers
    have 32 bytes. *)
Theorem getdata_serialize_layout (m : GetDataMessage) :
  len_items (data m) < 2 ^ 64 ->
  ((exists b, GetDataMessage_serialize m = Ok b) <->
   Forall (fun it => 0 <= fst it < 2 ^ 32) (data m)) /\
  (forall b, GetDataMessage_serialize m = Ok b ->
     exists v,
       encode_varint (len_items (data m)) = Ok v /\
       b = v ++ flat_map getdata_item (data m) /\
       (Forall (fun it => length (snd it) = 32%nat) (data m) ->
        len b = len v + 36 * len_items (data m))).
Proof.
  intros Hn. unfold GetDataMessage_serialize.
  destruct (encode_varint_cases (len_items (data m)))
    as [[_ (v & Hv & _)]|[Hout _]]; [|exfalso; apply Hout; unfold len_items in *; lia].
  rewrite Hv. cbn [bind]. split; [split|].
  - intros [b Hb]. eapply GetDataMessage_items_inv, Hb.
  - intros H. eexists. apply GetDataMessage_items_ok, H.
  - intros b Hb. exists v. split; [reflexivity|].
    pose proof (GetDataMessage_items_inv _ _ _ Hb) as Hfit.
    rewrite GetDataMessage_items_ok in Hb by exact Hfit.
    apply Ok_inv in Hb. subst b. split; [reflexivity|].
    intros H32. unfold len at 1. rewrite length_app.
    pose proof (getdata_items_length _ H32) as Hl. unfold len in *. lia.
Qed.

(** [GetDataMessageTest.test_serialize]: two entries, 73 bytes. *)
Lemma getdata_serialize_layout_witness :
  let m :=
    add_data FILTERED_BLOCK_DATA_TYPE
      (fromhex "00000000000000beb88910c46f6b442312361c6693a7fb52065b583979844910")
      (add_data FILTERED_BLOCK_DATA_TYPE
         (fromhex "00000000000000cac712b726e4326e596170574c01a16001692510c44025eb30")
         GetDataMessage_init) in
  exists b, GetDataMessage_serialize m = Ok b /\ len b = 73.
Proof.
  cbv zeta.
  match goal with
  | |- exists b, GetDataMessage_serialize ?m = _ /\ _ =>
      destruct (getdata_serialize_layout m) as [Hiff Hb];
        [vm_compute; reflexivity|];
      destruct (proj2 Hiff) as [b Eb];
        [repeat constructor; vm_compute; congruence|];
      exists b; split; [exact Eb|];
      destruct (Hb b Eb) as (v & Hv & _ & Hl);
      rewrite Hl by (repeat constructor);
      vm_compute in Hv; apply Ok_inv in Hv; subst v; reflexivity
  end.
Defined.

(** ** HeadersMessage *)

Lemma parse_headers_ok (B : BlockInterface) (n : nat) :
  forall (s s' : bytes) (acc hs : list (Block B)),
    parse_headers B n s acc = (Ok hs, s') ->
    exists new,
      hs = acc ++ new /\ length new = n /\
      Forall (fun h => tx_hashes B h = []) new /\
      blocks_read B s new s'.
Proof.
  induction n as [|n IH]; intros s s' acc hs H; cbn [parse_headers] in H.
  - apply pair_inv in H. destruct H as [H <-]. apply Ok_inv in H. subst hs.
    exists []. rewrite app_nil_r. repeat split; constructor.
  - destruct (Block_parse B s) as [[h|x] s1] eqn:Eb;
      [|apply pair_inv in H; destruct H as [H _]; discriminate H].
    destruct (length (tx_hashes B h)) as [|k] eqn:El; cbn [Nat.eqb negb] in H;
      [|apply pair_inv in H; destruct H as [H _]; discriminate H].
    apply IH in H. destruct H as (new & -> & Hlen & Hall & Hread).
    exists (h :: new). rewrite <- app_assoc. split; [reflexivity|].
    split; [cbn; lia|]. split.
    + constructor; [apply length_zero_iff_nil, El | exact Hall].
    + eapply blocks_read_cons; [exact Eb | exact Hread].
Qed.

(** X17. When [HeadersMessage.parse] returns a message, the count read at
    the head of the stream is the number of its headers, the headers are
    what [Block.parse] yields call after call on the bytes after the count,
    in stream order, none of them carries a transaction, and the stream is
    left where the last of those calls left it. *)
Theorem headers_parse_ok (B : BlockInterface) (s s' : bytes)
    (m : HeadersMessage B) :
  HeadersMessage_parse B s = (Ok m, s') ->
  exists num s1,
    read_varint B s = (Ok num, s1) /\
    length (headers m) = Z.to_nat num /\
    Forall (fun h => tx_hashes B h = []) (headers m) /\
    blocks_read B s1 (headers m) s'.
Proof.
  unfold HeadersMessage_parse. intros H.
  destruct (read_varint B s) as [[num|x] s1];
    [|apply pair_inv in H; destruct H as [H _]; discriminate H].
  destruct (parse_headers B (Z.to_nat num) s1 []) as [[hs|x] s2] eqn:E;
    apply pair_inv in H; destruct H as [H Hs]; [|discriminate H].
  apply Ok_inv in H. subst m s2. cbn [headers].
  apply parse_headers_ok in E. destruct E as (new & -> & Hlen & Hall & Hread).
  exists num, s1. cbn [app]. repeat split; assumption.
Qed.

Lemma headers_parse_ok_witness :
  let h1 := {| raw_header := firstn 80 (skipn 1 headers_payload);
               raw_tx_hashes := [] |} in
  let h2 := {| raw_header := firstn 80 (skipn 82 headers_payload);
               raw_tx_hashes := [] |} in
  HeadersMessage_parse RawBlocks headers_payload =
    (Ok (mkHeadersMessage (B := RawBlocks) [h1; h2]), []) /\
  blocks_read RawBlocks (skipn 1 headers_payload) [h1; h2] [].
Proof.
  cbv zeta.
  assert (E : HeadersMessage_parse RawBlocks headers_payload =
              (Ok (mkHeadersMessage (B := RawBlocks)
                     [{| raw_header := firstn 80 (skipn 1 headers_payload);
                         raw_tx_hashes := [] |};
                      {| raw_header := firstn 80 (skipn 82 headers_payload);
                         raw_tx_hashes := [] |}]), []))
    by reflexivity.
  split; [exact E|].
  destruct (headers_parse_ok RawBlocks _ _ _ E) as (num & s1 & Hv & _ & _ & Hr).
  assert (Hv' : read_varint RawBlocks headers_payload =
               (Ok 2, skipn 1 headers_payload)) by reflexivity.
  rewrite Hv' in Hv. apply pair_inv in Hv. destruct Hv as [_ <-]. exact Hr.
Defined.

Lemma parse_headers_txs (B : BlockInterface) (pre : list (Block B)) :
  forall (n : nat) (s s2 s3 : bytes) (acc : list (Block B)) (h : Block B),
    blocks_read B s pre s2 ->
    Forall (fun h => tx_hashes B h = []) pre ->
    Block_parse B s2 = (Ok h, s3) ->
    tx_hashes B h <> [] ->
    (length pre < n)%nat ->
    parse_headers B n s acc = (Raise (RuntimeError "number of txs not 0"), s3).
Proof.
  induction pre as [|a pre IH]; intros n s s2 s3 acc h Hread Hall Hb Htx Hn;
    (destruct n as [|n]; [cbn in Hn; lia|]); cbn [parse_headers];
    inversion Hread; subst.
  - rewrite Hb. destruct (tx_hashes B h) as [|t ts]; [contradiction|].
    reflexivity.
  - inversion Hall as [|? ? Ha Hrest]; subst.
    match goal with
    | Hp : Block_parse B s = (Ok a, ?s1) |- _ => rewrite Hp
    end.
    rewrite Ha. cbn [length Nat.eqb negb].
    eapply IH; try eassumption. cbn [length] in Hn. lia.
Qed.

(** X18. A header that carries transactions stops [HeadersMessage.parse]:
    when, within the count announced, [Block.parse] yields a header with a
    transaction after headers that have none, [parse] raises the "number
    of txs not 0" error and leaves the stream right after that header; the
    headers read before it are dropped. *)
Theorem headers_parse_rejects_txs (B : BlockInterface) (s s1 s2 s3 : bytes)
    (num : Z) (pre : list (Block B)) (h : Block B) :
  read_varint B s = (Ok num, s1) ->
  blocks_read B s1 pre s2 ->
  Forall (fun h => tx_hashes B h = []) pre ->
  Block_parse B s2 = (Ok h, s3) ->
  tx_hashes B h <> [] ->
  (length pre < Z.to_nat num)%nat ->
  HeadersMessage_parse B s = (Raise (RuntimeError "number of txs not 0"), s3).
Proof.
  intros Hv Hread Hall Hb Htx Hn. unfold HeadersMessage_parse. rewrite Hv.
  rewrite (parse_headers_txs B pre _ _ _ _ [] h Hread Hall Hb Htx Hn).
  reflexivity.
Qed.

(** One header of 80 zero bytes followed by one transaction hash, and a
    trailing byte. *)
Lemma headers_parse_rejects_txs_witness :
  HeadersMessage_parse RawBlocks
    ([x01] ++ zeros 80 ++ [x01] ++ zeros 32 ++ [xff]) =
  (Raise (RuntimeError "number of txs not 0"), [xff]).
Proof.
  apply (headers_parse_rejects_txs RawBlocks _
           (zeros 80 ++ [x01] ++ zeros 32 ++ [xff])
           (zeros 80 ++ [x01] ++ zeros 32 ++ [xff]) [xff] 1 []
           {| raw_header := zeros 80; raw_tx_hashes := [zeros 32] |}).
  - reflexivity.
  - apply blocks_read_nil.
  - constructor.
  - reflexivity.
  - discriminate.
  - cbn. lia.
Defined.

Lemma truthy_Some (l : bytes) : truthy (Some l) = false <-> l = [].
Proof. destruct l; cbn; split; congruence. Qed.

Lemma is_valid_from_iff (B : BlockInterface) (hs : list (Block B)) :
  forall last : option bytes,
    is_valid_from B last hs = true <->
    Forall (fun h => check_pow B h = true) hs /\
    linked B hs /\
    match hs with
    | [] => True
    | h :: _ => truthy last = false \/ Some (prev_block B h) = last
    end.
Proof.
  induction hs as [|h rest IH]; intros last.
  - cbn. split; [intros _; repeat split; constructor | reflexivity].
  - cbn [is_valid_from]. destruct (check_pow B h) eqn:Ep; cbn [negb].
    + assert (Hstep :
        (truthy last &&
         negb (bytes_eqb (prev_block B h)
                 match last with Some l => l | None => [] end)) = false <->
        (truthy last = false \/ Some (prev_block B h) = last)).
      { destruct last as [l|]; [|cbn; split; [left; reflexivity | reflexivity]].
        destruct (truthy (Some l)) eqn:Et; cbn [andb].
        - destruct (bytes_eqb (prev_block B h) l) eqn:Eq; cbn [negb].
          + apply bytes_eqb_eq in Eq. subst l.
            split; [right; reflexivity | reflexivity].
          + apply bytes_eqb_false in Eq.
            split; [discriminate | intros [H|H]; [discriminate H | congruence]].
        - split; [left; reflexivity | reflexivity]. }
      destruct (truthy last && _) eqn:Ec.
      * split; [discriminate|]. intros (_ & _ & Hh).
        apply Hstep in Hh. discriminate Hh.
      * rewrite IH. assert (Hh := proj1 Hstep eq_refl). clear Hstep.
        destruct rest as [|b rest'].
        -- cbn [linked]. split.
           ++ intros _. repeat split; [repeat constructor; exact Ep | exact Hh].
           ++ intros _. repeat split. constructor.
        -- cbn [linked]. rewrite truthy_Some. split.
           ++ intros (Hall & Hl & Hb). split; [constructor; assumption|].
              split; [|exact Hh]. split; [|exact Hl].
              destruct Hb as [Hb|Hb]; [left; exact Hb | right; congruence].
           ++ intros (Hall & (Hb & Hl) & _). inversion Hall; subst.
              split; [assumption|]. split; [exact Hl|].
              destruct Hb as [Hb|Hb]; [left; exact Hb | right; congruence].
    + split; [discriminate|]. intros (Hall & _). inversion Hall; congruence.
Qed.

(** X19. [HeadersMessage.is_valid] is true exactly when every header passes
    its proof-of-work check and every header after the first names, as its
    previous block, the hash of the header before it -- a comparison the
    code skips when that hash is the empty byte string.  In particular a
    message without headers is valid. *)
Theorem headers_is_valid_iff (B : BlockInterface) (m : HeadersMessage B) :
  (is_valid m = true <->
   Forall (fun h => check_pow B h = true) (headers m) /\ linked B (headers m)) /\
  is_valid (mkHeadersMessage (B := B) []) = true.
Proof.
  split; [|reflexivity]. unfold is_valid. rewrite is_valid_from_iff. split.
  - intros (Hall & Hl & _). split; assumption.
  - intros (Hall & Hl). split; [exact Hall|]. split; [exact Hl|].
    destruct (headers m); [exact I | left; reflexivity].
Qed.

(** ** Truncated input, GetHeaders, logging *)

(** X20. A stream that starts with the configured magic but ends before the
    24 bytes of a header are complete is reported as a checksum mismatch:
    the bytes read as the checksum are fewer than four and cannot equal the
    four bytes computed. *)
Theorem parse_truncated_header (s : bytes) (net : network) :
  firstn 4 s = MAGIC net ->
  (length s < 24)%nat ->
  parse s net = (Raise checksum_mismatch, []).
Proof.
  intros Hm Hl. unfold parse. cbv beta iota zeta delta [read].
  change (Z.to_nat 4) with 4%nat. change (Z.to_nat 12) with 12%nat.
  rewrite Hm, MAGIC_not_empty, bytes_eqb_refl. cbn [negb].
  set (s3 := skipn 4 (skipn 12 (skipn 4 s))).
  assert (H3 : (length s3 < 4)%nat)
    by (subst s3; rewrite !length_skipn; lia).
  rewrite bytes_eqb_neq.
  - cbn [negb]. f_equal. apply skipn_all2.
    rewrite length_skipn. lia.
  - intros H. apply (f_equal (@length byte)) in H.
    rewrite checksum_length, length_firstn in H. lia.
Qed.

Lemma parse_truncated_header_witness :
  parse (firstn 23 verack_frame) mainnet = (Raise checksum_mismatch, []).
Proof.
  apply parse_truncated_header; [reflexivity | cbn; lia].
Defined.

(** X21. [GetHeadersMessage.serialize] returns exactly when the version fits
    4 bytes and the number of hashes is below 2^64, and what it returns is
    the version on 4 little-endian bytes, the varint of that number, and the
    start and end blocks, each in reverse byte order: one start hash
    whatever the number announced, and no check of the 32-byte length. *)
Theorem getheaders_serialize_layout (m : GetHeadersMessage) :
  ((exists b, GetHeadersMessage_serialize m = Ok b) <->
   0 <= gh_version m < 2 ^ 32 /\ 0 <= num_hashes m < 2 ^ 64) /\
  (forall b, GetHeadersMessage_serialize m = Ok b ->
     exists v,
       encode_varint (num_hashes m) = Ok v /\
       b = le_split 4 (gh_version m) ++ v ++ rev (start_block m)
             ++ rev (end_block m) /\
       len b = 4 + len v + len (start_block m) + len (end_block m)).
Proof.
  unfold GetHeadersMessage_serialize.
  destruct (int_to_little_endian_cases (gh_version m) 4) as [[Hv ->]|[Hv ->]];
    cbn [bind]; cbn in Hv.
  - destruct (encode_varint_cases (num_hashes m))
      as [[Hn (v & -> & _)]|[Hn ->]]; cbn [bind].
    + split; [split|].
      * intros _. split; assumption.
      * intros _. eexists. reflexivity.
      * intros b Hb. apply Ok_inv in Hb. subst b. exists v.
        split; [reflexivity|]. split; [reflexivity|]. unfold len.
        rewrite !length_app, !length_rev, length_le_split. lia.
    + split; [split|].
      * intros [? Hb]. discriminate Hb.
      * intros [_ H]. contradiction.
      * intros ? Hb. discriminate Hb.
  - split; [split|].
    + intros [? Hb]. discriminate Hb.
    + intros [H _]. exfalso. apply Hv. lia.
    + intros ? Hb. discriminate Hb.
Qed.

(** Three hashes announced, one sent; a start block of two bytes. *)
Lemma getheaders_serialize_layout_witness :
  exists m,
    GetHeadersMessage_init 70015 3 (Some [x01; x02]) None = Ok m /\
    GetHeadersMessage_serialize m =
      Ok (fromhex "7f110100" ++ [x03] ++ [x02; x01] ++ zeros 32).
Proof.
  exists {| gh_version := 70015; num_hashes := 3; start_block := [x01; x02];
            end_block := zeros 32 |}.
  split; [reflexivity|].
  destruct (getheaders_serialize_layout
              {| gh_version := 70015; num_hashes := 3; start_block := [x01; x02];
                 end_block := zeros 32 |}) as [Hiff Hb].
  destruct (proj2 Hiff) as [b Eb]; [cbn; lia|].
  destruct (Hb b Eb) as (v & Hv & -> & _).
  rewrite Eb. vm_compute in Hv. apply Ok_inv in Hv. subst v. reflexivity.
Defined.

(** X22. With logging on, the line [send] prints does not depend on what is
    sent: [NetworkEnvelope.__repr__] returns its format text as it stands,
    so every message is logged as the same line, and with logging off
    nothing is printed. *)
Theorem send_log_line (m : message) (node node' : SimpleNode) (u : unit) :
  send m node = (Ok u, node') ->
  printed node' =
    printed node ++
    (if logging node
     then [("sending: {self.command.decode(" ++ String (ascii_of_nat 34) "ascii"
            ++ String (ascii_of_nat 34) ")}: {self.payload.hex()}")%string]
     else []).
Proof.
  unfold send. destruct (message_serialize m) as [p|x];
    [|intros H; apply pair_inv in H; destruct H as [H _]; discriminate H].
  destruct (Z.lt_ge_cases (len p) (2 ^ 32)) as [Hp|Hp].
  - rewrite serialize_wire by exact Hp. intros H. apply pair_inv in H.
    destruct H as [_ <-]. destruct (logging node); cbn.
    + reflexivity.
    + rewrite app_nil_r. reflexivity.
  - rewrite serialize_overflow by exact Hp. intros H. apply pair_inv in H.
    destruct H as [H _]. discriminate H.
Qed.

Lemma send_log_line_witness :
  let node := {| node_network := mainnet; logging := true; stream := [];
                 sent := []; printed := [] |} in
  exists n1 n2,
    send VerAck node = (Ok tt, n1) /\
    send (Ping (fromhex "0102030405060708")) node = (Ok tt, n2) /\
    printed n1 = printed n2.
Proof.
  cbv zeta.
  destruct (send VerAck _) as [[[]|x] n1] eqn:H1; [|vm_compute in H1; discriminate H1].
  destruct (send (Ping _) _) as [[[]|x] n2] eqn:H2; [|vm_compute in H2; discriminate H2].
  exists n1, n2. split; [reflexivity|]. split; [reflexivity|].
  rewrite (send_log_line _ _ _ _ H1), (send_log_line _ _ _ _ H2). reflexivity.
Defined.
